(** * Viral-index scripts of the news / bestseller analysis repository

    Embedded sources:
    - [src/월별 바이럴 지수/calculate_viral_index.py]   (module [Monthly])
    - [src/analysis/calculate_weekly_viral_index.py]   (module [Weekly])

    Both scripts are short pandas pipelines.  The pandas operations they
    call ([shift], [pct_change], [rolling(...).mean()], [mean], [std],
    [clip], [fillna], [sort_values], [head], [groupby(...).size()],
    [unstack]) are embedded in [Pandas] and [Weekly] with the semantics
    pandas documents for them.  The signals are computed column by column,
    so [Monthly] and [Weekly] first give them on one category column and
    then on the whole table.

    Numbers.  The scripts compute in IEEE binary64.  [Float.float] keeps the
    special values of that format (the two infinities and NaN, with the IEEE
    rules for them) because the scripts' behaviour depends on them
    ([fillna] replaces NaN and nothing else, a division by zero yields an
    infinity or NaN instead of raising).  Finite values are exact real
    numbers: rounding and overflow are not modelled, and the two signed
    zeros are one value (every divisor in the scripts is a count, a mean of
    counts or a standard deviation, hence never a negative zero). *)

From Stdlib Require Import String Ascii DecimalString Reals Lra Lia ZArith Bool Arith List
  Permutation Sorted OrderedTypeEx.
Import ListNotations.

Module Float.

Inductive float : Type :=
| Fin (x : R)
| PInf
| NInf
| NaN.

(** Sign of a real, as a three-way decision. *)
Definition sign_of (x : R) : comparison :=
  match total_order_T x 0 with
  | inleft (left _) => Lt
  | inleft (right _) => Eq
  | inright _ => Gt
  end.

Definition gtb (x u : R) : bool := if Rlt_dec u x then true else false.

Definition fopp (a : float) : float :=
  match a with
  | Fin x => Fin (- x)
  | PInf => NInf
  | NInf => PInf
  | NaN => NaN
  end.

Definition fadd (a b : float) : float :=
  match a, b with
  | NaN, _ | _, NaN => NaN
  | Fin x, Fin y => Fin (x + y)
  | PInf, NInf | NInf, PInf => NaN
  | PInf, _ | _, PInf => PInf
  | NInf, _ | _, NInf => NInf
  end.

Definition fsub (a b : float) : float := fadd a (fopp b).

(** An infinity of sign [pos] times (or divided by) a value of sign [s]. *)
Definition inf_signed (pos : bool) (s : comparison) : float :=
  match s with
  | Eq => NaN
  | Gt => if pos then PInf else NInf
  | Lt => if pos then NInf else PInf
  end.

Definition fmul (a b : float) : float :=
  match a, b with
  | NaN, _ | _, NaN => NaN
  | Fin x, Fin y => Fin (x * y)
  | PInf, Fin y | Fin y, PInf => inf_signed true (sign_of y)
  | NInf, Fin y | Fin y, NInf => inf_signed false (sign_of y)
  | PInf, PInf | NInf, NInf => PInf
  | PInf, NInf | NInf, PInf => NInf
  end.

(** Division never raises on a numpy array: a zero divisor gives an
    infinity, or NaN for 0/0. *)
Definition fdiv (a b : float) : float :=
  match a, b with
  | NaN, _ | _, NaN => NaN
  | Fin x, Fin y =>
      match sign_of y with
      | Eq => inf_signed true (sign_of x)
      | _ => Fin (x / y)
      end
  | Fin _, PInf | Fin _, NInf => Fin 0
  | PInf, Fin y => match sign_of y with Lt => NInf | _ => PInf end
  | NInf, Fin y => match sign_of y with Lt => PInf | _ => NInf end
  | _, _ => NaN
  end.

Definition fsqrt (a : float) : float :=
  match a with
  | Fin x => match sign_of x with Lt => NaN | _ => Fin (sqrt x) end
  | PInf => PInf
  | NInf | NaN => NaN
  end.

Definition isna (a : float) : bool :=
  match a with NaN => true | _ => false end.

(** [x.fillna(0)] on one cell: NaN becomes 0, infinities stay. *)
Definition fillna0 (a : float) : float :=
  match a with NaN => Fin 0 | _ => a end.

(** [x.clip(upper=u)] on one cell: NaN stays NaN. *)
Definition clip_upper (u : R) (a : float) : float :=
  match a with
  | Fin x => if gtb x u then Fin u else Fin x
  | PInf => Fin u
  | NInf => NInf
  | NaN => NaN
  end.

(** [x.clip(lower=l)] on one cell. *)
Definition clip_lower (l : R) (a : float) : float :=
  match a with
  | Fin x => if gtb l x then Fin l else Fin x
  | PInf => PInf
  | NInf => Fin l
  | NaN => NaN
  end.

(** [x.clip(lower=l, upper=u)] on one cell. *)
Definition clip (l u : R) (a : float) : float :=
  clip_upper u (clip_lower l a).

End Float.

Import Float.

Declare Scope float_scope.
Delimit Scope float_scope with fl.
Infix "+" := fadd : float_scope.
Infix "-" := fsub : float_scope.
Infix "*" := fmul : float_scope.
Infix "/" := fdiv : float_scope.

Module Pandas.

(** One column of a DataFrame, top row first. *)
Definition series := list float.

(** A column of integer counts seen as floats. *)
Definition of_counts (col : list Z) : series :=
  map (fun c => Fin (IZR c)) col.

(** Cell-wise operation on two columns with the same index. *)
Definition zip_with (f : float -> float -> float) (a b : series) : series :=
  map (fun p => f (fst p) (snd p)) (combine a b).

(** [s.shift(1)]: every value moves one row down, the first row is NaN. *)
Definition shift1 (s : series) : series :=
  match s with
  | [] => []
  | _ :: _ => NaN :: removelast s
  end.

(** [s.pct_change()]: pandas evaluates [s / s.shift(1) - 1]. *)
Definition pct_change (s : series) : series :=
  map (fun q => (q - Fin 1)%fl) (zip_with fdiv s (shift1 s)).

Definition dropna (s : series) : series :=
  filter (fun a => negb (isna a)) s.

Definition fsum (s : series) : float := fold_left fadd s (Fin 0).

(** [s.mean()] (skipna): the sum of the non-NaN values over their number;
    NaN when there is none. *)
Definition mean (s : series) : float :=
  let v := dropna s in (fsum v / Fin (INR (length v)))%fl.

(** [s.std()]: sample standard deviation, pandas' default [ddof=1];
    NaN when fewer than two values are present. *)
Definition std (s : series) : float :=
  let v := dropna s in
  let n := length v in
  if (n <=? 1)%nat then NaN
  else
    let avg := (fsum v / Fin (INR n))%fl in
    let sqr := fsum (map (fun x => ((avg - x) * (avg - x))%fl) v) in
    fsqrt (sqr / Fin (INR (n - 1)))%fl.

(** Rows [t-w+1 .. t] of [s] (fewer near the top). *)
Definition window (w : nat) (s : series) (t : nat) : series :=
  skipn (S t - w) (firstn (S t) s).

(** [s.rolling(window=w, min_periods=1).mean()]. *)
Definition rolling_mean (w : nat) (s : series) : series :=
  map (fun t => mean (window w s t)) (seq 0 (length s)).

(** Broadcast of a scalar over a column. *)
Definition bcast (s : series) (a : float) : series := map (fun _ => a) s.

(** ** Labels and tables *)

(** [s.unique()]: the distinct values, in order of first appearance. *)
Fixpoint unique_by {A} (eqb : A -> A -> bool) (l : list A) : list A :=
  match l with
  | [] => []
  | x :: l' => x :: filter (fun y => negb (eqb x y)) (unique_by eqb l')
  end.

Fixpoint insert_by {A} (leb : A -> A -> bool) (x : A) (l : list A) : list A :=
  match l with
  | [] => [x]
  | y :: l' => if leb x y then x :: l else y :: insert_by leb x l'
  end.

(** Python's [sorted] (ascending, stable). *)
Definition sorted_by {A} (leb : A -> A -> bool) (l : list A) : list A :=
  fold_right (insert_by leb) [] l.

Definition unique : list string -> list string := unique_by String.eqb.
Definition sorted : list string -> list string := sorted_by String.leb.

(** [l.index(x)]: position of the first occurrence ([length l] stands for
    the [ValueError] of an absent value). *)
Fixpoint index_of (x : string) (l : list string) : nat :=
  match l with
  | [] => 0
  | y :: l' => if String.eqb x y then 0 else S (index_of x l')
  end.

(** Python dict lookup [d[k]]; [None] is the [KeyError]. *)
Fixpoint lookup {K A} (eqb : K -> K -> bool) (k : K) (d : list (K * A))
  : option A :=
  match d with
  | [] => None
  | (k', v) :: d' => if eqb k k' then Some v else lookup eqb k d'
  end.

(** A DataFrame as its columns, left to right; the row index is kept
    beside it by the scripts ([months], the week list). *)
Definition frame := list (string * series).

(** A column-wise operation applied to every column. *)
Definition col_map (f : series -> series) (df : frame) : frame :=
  map (fun c => (fst c, f (snd c))) df.

(** The row of [df] at position [i], as a Series indexed by column. *)
Definition row_at (df : frame) (i : nat) : list (string * float) :=
  map (fun c => (fst c, nth i (snd c) NaN)) df.

(** One cell by row position and column label. *)
Definition cell_at (df : frame) (i : nat) (c : string) : float :=
  match lookup String.eqb c df with
  | Some col => nth i col NaN
  | None => NaN
  end.

(** [a >= b] on floats; false as soon as one side is NaN. *)
Definition fgeb (a b : float) : bool :=
  match a, b with
  | NaN, _ | _, NaN => false
  | PInf, _ => true
  | _, NInf => true
  | NInf, _ => false
  | Fin _, PInf => false
  | Fin x, Fin y => if Rle_dec y x then true else false
  end.

Fixpoint insert_desc (x : string * float) (l : list (string * float))
  : list (string * float) :=
  match l with
  | [] => [x]
  | y :: l' =>
      if fgeb (snd x) (snd y) then x :: l else y :: insert_desc x l'
  end.

(** The sort that [sort_values] runs on the values that are not NaN.  It is
    chosen by the [kind] argument; the script passes none, so numpy's
    default sort runs, which documents no order among equal values.  The
    ranking is therefore embedded over any such sort. *)
Definition sort_kind : Type :=
  list (string * float) -> list (string * float).

(** The order-preserving sort (the one [kind='stable'] selects): every
    entry is inserted, from the last one to the first, before the first
    entry it is at least equal to. *)
Definition stable_kind : sort_kind := fold_right insert_desc [].

(** [row.sort_values(ascending=False)]: the entries that are not NaN as
    the sort arranges them, then the NaN entries in column order. *)
Definition sort_values_desc (kind : sort_kind) (row : list (string * float))
  : list (string * float) :=
  kind (filter (fun c => negb (isna (snd c))) row)
  ++ filter (fun c => isna (snd c)) row.

Definition head {A} (n : nat) (l : list A) : list A := firstn n l.

(** [enumerate(l, 1)]. *)
Definition enumerate1 {A} (l : list A) : list (nat * A) :=
  combine (seq 1 (length l)) l.

End Pandas.

Import Pandas.

(** ** Python number formatting used by the monthly report *)
Module Py.

(** Nearest integer, ties to the even one. *)
Definition round_half_even (x : R) : Z :=
  let f := Int_part x in
  match total_order_T (x - IZR f) (1 / 2) with
  | inleft (left _) => f
  | inleft (right _) => if Z.even f then f else (f + 1)%Z
  | inright _ => (f + 1)%Z
  end.

(** [round(a, ndigits)] on a float. *)
Definition round (a : float) (ndigits : nat) : float :=
  match a with
  | Fin x => Fin (IZR (round_half_even (x * 10 ^ ndigits)) / 10 ^ ndigits)
  | _ => a
  end.

Definition digits (n : Z) : string :=
  NilZero.string_of_uint (N.to_uint (Z.to_N n)).

(** [f"{a:+.1f}"]. *)
Definition format_plus_1f (a : float) : string :=
  match a with
  | NaN => "+nan"
  | PInf => "+inf"
  | NInf => "-inf"
  | Fin x =>
      let tenths := round_half_even (Rabs x * 10) in
      ((match sign_of x with Lt => "-" | _ => "+" end)
         ++ digits (tenths / 10) ++ "." ++ digits (tenths mod 10))%string
  end.

End Py.

(** ** [calculate_viral_index] (monthly script), one category column *)
Module Monthly.

Definition mom_growth (count : series) : series :=
  map (fun g => (g * Fin 100)%fl) (pct_change count).

Definition ma3 (count : series) : series := rolling_mean 3 count.

Definition ma_deviation (count : series) : series :=
  map (fun q => (q * Fin 100)%fl)
      (zip_with fdiv (zip_with fsub count (ma3 count)) (ma3 count)).

Definition z_scores (count : series) : series :=
  zip_with fdiv
    (zip_with fsub count (bcast count (mean count)))
    (bcast count (std count)).

Definition growth_term (count : series) : series :=
  map (fun g => (fillna0 g * Fin 0.5)%fl) (mom_growth count).

Definition deviation_term (count : series) : series :=
  map (fun d => (fillna0 d * Fin 0.3)%fl) (ma_deviation count).

Definition z_term (count : series) : series :=
  map (fun z => (fillna0 z * Fin 20 * Fin 0.2)%fl) (z_scores count).

Definition viral_index (count : series) : series :=
  zip_with fadd
    (zip_with fadd (growth_term count) (deviation_term count))
    (z_term count).

(** *** The table-level part of the script *)

(** A row of the input sheet: columns [년월] and [카테고리]. *)
Record article := { ym : string; category : string }.

Definition unclassified : string := "미분류".

Definition df_classified (df : list article) : list article :=
  filter (fun r => negb (category r =? unclassified)%string) df.

Definition months (dfc : list article) : list string :=
  sorted (unique (map ym dfc)).

Definition categories (dfc : list article) : list string :=
  sorted (unique (map category dfc)).

Definition cat_count (dfc : list article) (month cat : string) : Z :=
  let month_data := filter (fun r => (ym r =? month)%string) dfc in
  Z.of_nat (length (filter (fun r => (category r =? cat)%string) month_data)).

(** The dict of dicts filled by the two nested loops. *)
Definition monthly_counts (dfc : list article)
  : list (string * list (string * Z)) :=
  map (fun month =>
         (month, map (fun cat => (cat, cat_count dfc month cat))
                     (categories dfc)))
      (months dfc).

(** [monthly_counts[month][cat]]. *)
Definition counts_get (dfc : list article) (month cat : string) : option Z :=
  match lookup String.eqb month (monthly_counts dfc) with
  | Some d => lookup String.eqb cat d
  | None => None
  end.

(** [count_df = pd.DataFrame(monthly_counts).T]: the same table as a
    frame, one row per month and one column per category. *)
Definition count_df (dfc : list article) : frame :=
  map (fun cat =>
         (cat, of_counts (map (fun month => cat_count dfc month cat)
                              (months dfc))))
      (categories dfc).

Definition mom_growth_df (dfc : list article) : frame :=
  col_map mom_growth (count_df dfc).

Definition ma_deviation_df (dfc : list article) : frame :=
  col_map ma_deviation (count_df dfc).

Definition z_scores_df (dfc : list article) : frame :=
  col_map z_scores (count_df dfc).

Definition viral_index_df (dfc : list article) : frame :=
  col_map viral_index (count_df dfc).

(** One row of [viral_results]. *)
Record viral_result := {
  r_ym : string;            (* 년월 *)
  r_rank : nat;             (* 순위 *)
  r_category : string;      (* 카테고리 *)
  r_viral : float;          (* 바이럴지수 *)
  r_count : Z;              (* 실제기사수 *)
  r_mom_str : string;       (* 전월대비 *)
  r_mom_growth : float;     (* MoM증가율 *)
  r_ma_deviation : float;   (* MA대비편차 *)
  r_z_score : float         (* Z-Score *)
}.

(** The text of the [전월대비] column for one (month, category). *)
Definition mom_str (dfc : list article) (month cat : string) : string :=
  let actual_count := cat_count dfc month cat in
  let month_idx := index_of month (months dfc) in
  if (0 <? month_idx)%nat then
    let prev_month := nth (month_idx - 1) (months dfc) ""%string in
    let prev_count := cat_count dfc prev_month cat in
    let mom_change :=
      if (0 <? prev_count)%Z
      then (Fin (IZR (actual_count - prev_count)) / Fin (IZR prev_count)
            * Fin 100)%fl
      else Fin 0 in
    (Py.format_plus_1f mom_change ++ "%")%string
  else "N/A"%string.

(** The rows appended for one month: the three best categories, [kind]
    being the sort that [sort_values] runs. *)
Definition month_results (kind : sort_kind) (dfc : list article)
           (month : string) : list viral_result :=
  let i := index_of month (months dfc) in
  let month_viral := sort_values_desc kind (row_at (viral_index_df dfc) i) in
  map (fun e =>
         let rank := fst e in
         let cat := fst (snd e) in
         let viral_score := snd (snd e) in
         {| r_ym := month;
            r_rank := rank;
            r_category := cat;
            r_viral := Py.round viral_score 1;
            r_count := cat_count dfc month cat;
            r_mom_str := mom_str dfc month cat;
            r_mom_growth := Py.round (cell_at (mom_growth_df dfc) i cat) 1;
            r_ma_deviation := Py.round (cell_at (ma_deviation_df dfc) i cat) 1;
            r_z_score := Py.round (cell_at (z_scores_df dfc) i cat) 2 |})
      (enumerate1 (head 3 month_viral)).

(** [viral_results] after the loop over [months].  The test
    [month not in viral_index.index] never holds, the index of the frame
    being [months] itself. *)
Definition viral_results (kind : sort_kind) (dfc : list article)
  : list viral_result :=
  flat_map (month_results kind dfc) (months dfc).

(** The pair the function returns: the top-3 table and the full matrix. *)
Definition calculate_viral_index (kind : sort_kind) (df : list article)
  : list viral_result * frame :=
  let dfc := df_classified df in
  (viral_results kind dfc, viral_index_df dfc).

End Monthly.

(** ** [calculate_weekly_viral_index] (weekly script), one category column *)
Module Weekly.

Definition prev_counts (count : series) : series := shift1 count.

(** The divisor [(prev_counts + 1)] of the growth. *)
Definition growth_divisor (count : series) : series :=
  map (fun p => (p + Fin 1)%fl) (prev_counts count).

Definition wow_growth (count : series) : series :=
  map (fun q => (q * Fin 100)%fl)
      (zip_with fdiv
         (zip_with fsub count (prev_counts count))
         (growth_divisor count)).

Definition ma4 (count : series) : series := rolling_mean 4 count.

(** The divisor [(ma4 + 1)] of the deviation. *)
Definition deviation_divisor (count : series) : series :=
  map (fun m => (m + Fin 1)%fl) (ma4 count).

Definition ma_deviation (count : series) : series :=
  map (fun q => (q * Fin 100)%fl)
      (zip_with fdiv
         (zip_with fsub count (ma4 count))
         (deviation_divisor count)).

Definition eps : R := 1 / 10 ^ 9.

Definition z_scores (count : series) : series :=
  zip_with fdiv
    (zip_with fsub count (bcast count (mean count)))
    (bcast count (std count + Fin eps)%fl).

Definition growth_term (count : series) : series :=
  map (fun g => (fillna0 (clip_upper 300 g) * Fin 0.4)%fl) (wow_growth count).

Definition deviation_term (count : series) : series :=
  map (fun d => (fillna0 (clip_upper 300 d) * Fin 0.4)%fl) (ma_deviation count).

Definition z_term (count : series) : series :=
  map (fun z => (fillna0 (clip (-3) 3 z) * Fin 10 * Fin 0.2)%fl) (z_scores count).

Definition viral_index (count : series) : series :=
  zip_with fadd
    (zip_with fadd (growth_term count) (deviation_term count))
    (z_term count).

(** *** The table-level part of the script *)

(** A cell of the [news_date] column as the database returns it, with
    what [pd.to_datetime] makes of it: a text it parses to a day (days
    since 1970-01-01), a text it rejects, or a null. *)
Inductive raw_date :=
| DateText (parsed : option Z)
| DateNull.

Record raw_news := { news_date : raw_date; raw_category : option string }.

(** A row of the frame [fetch_news_data_from_db] returns: [None] in
    [date] is NaT, [None] in [category] is a null label. *)
Record news := { date : option Z; category : option string }.

(** [pd.to_datetime(col)]: raises on the first text it cannot parse
    ([None] here), maps a null to NaT. *)
Fixpoint to_datetime (col : list raw_date) : option (list (option Z)) :=
  match col with
  | [] => Some []
  | DateNull :: col' => option_map (cons None) (to_datetime col')
  | DateText (Some d) :: col' => option_map (cons (Some d)) (to_datetime col')
  | DateText None :: _ => None
  end.

(** Lines 57-68 of [fetch_news_data_from_db], from the accumulated pages
    on: [None] when nothing was loaded or when the [except] branch runs. *)
Definition fetch_news_data_from_db (all_data : list raw_news)
  : option (list news) :=
  match all_data with
  | [] => None
  | _ :: _ =>
      match to_datetime (map news_date all_data) with
      | None => None
      | Some dates =>
          Some (map (fun p => {| date := fst p; category := snd p |})
                    (combine dates (map raw_category all_data)))
      end
  end.

(** The bucket of [freq='W-TUE']: the Tuesday on or after the day
    (1970-01-06, day 5, is a Tuesday). *)
Definition week_end (d : Z) : Z := (d + (5 - d) mod 7)%Z.

(** The group key of a row; [groupby] drops a row with a null key. *)
Definition group_key (r : news) : option (Z * string) :=
  match date r, category r with
  | Some d, Some c => Some (week_end d, c)
  | _, _ => None
  end.

Definition key_eqb (a b : Z * string) : bool :=
  (fst a =? fst b)%Z && (snd a =? snd b)%string.

Fixpoint keys_of (df : list news) : list (Z * string) :=
  match df with
  | [] => []
  | r :: df' =>
      match group_key r with
      | Some k => k :: keys_of df'
      | None => keys_of df'
      end
  end.

Definition weeks (df : list news) : list Z :=
  sorted_by Z.leb (unique_by Z.eqb (map fst (keys_of df))).

Definition categories (df : list news) : list string :=
  sorted (unique (map snd (keys_of df))).

(** [groupby([...]).size()]: one entry per observed (week, category). *)
Definition group_size (df : list news) : list ((Z * string) * Z) :=
  flat_map
    (fun w =>
       flat_map
         (fun c =>
            let n := length (filter (key_eqb (w, c)) (keys_of df)) in
            if (0 <? n)%nat then [((w, c), Z.of_nat n)] else [])
         (categories df))
    (weeks df).

(** [.unstack(level=1)]: a pair with no entry becomes NaN. *)
Definition unstack (df : list news) : frame :=
  map (fun c =>
         (c, map (fun w =>
                    match lookup key_eqb (w, c) (group_size df) with
                    | Some n => Fin (IZR n)
                    | None => NaN
                    end)
                 (weeks df)))
      (categories df).

Definition weekly_counts (df : list news) : frame :=
  col_map (map fillna0) (unstack df).

(** [weekly_counts.loc[w, c]]; [None] is the [KeyError]. *)
Definition counts_get (df : list news) (w : Z) (c : string) : option float :=
  match lookup String.eqb c (weekly_counts df) with
  | Some col =>
      match find (fun p => (fst p =? w)%Z) (combine (weeks df) col) with
      | Some p => Some (snd p)
      | None => None
      end
  | None => None
  end.

Definition calculate_weekly_viral_index (df : list news) : frame * frame :=
  (weekly_counts df, col_map viral_index (weekly_counts df)).

(** [main] up to the two frames the export is built from; [None] when it
    returns early because nothing could be loaded. *)
Definition main (all_data : list raw_news) : option (frame * frame) :=
  match fetch_news_data_from_db all_data with
  | None => None
  | Some news_df => Some (calculate_weekly_viral_index news_df)
  end.

End Weekly.


(** * Notions used to state the properties *)

Local Open Scope R_scope.

(** Sum of a list of reals, accumulated from the left as [fsum] does. *)
Definition Rsum (xs : list R) : R := fold_left Rplus xs 0.

(** Sum of the squared distances to [avg]. *)
Definition sqdev (avg : R) (xs : list R) : R :=
  Rsum (map (fun x => (avg - x) * (avg - x)) xs).

(** The sample variance pandas takes the root of. *)
Definition sample_var (xs : list R) : R :=
  sqdev (Rsum xs / INR (length xs)) xs / INR (length xs - 1).

(** The rows of a finite column a rolling window covers. *)
Definition window_values (w : nat) (xs : list R) (t : nat) : list R :=
  skipn (S t - w) (firstn (S t) xs).

(** The trailing average of [w] rows (fewer near the top) at row [t]. *)
Definition rolling_avg (w : nat) (xs : list R) (t : nat) : R :=
  Rsum (window_values w xs t) / INR (length (window_values w xs t)).

(** A column of counts as reals, and its cell at row [t]. *)
Definition reals (cs : list Z) : list R := map IZR cs.
Definition count_at (cs : list Z) (t : nat) : R := IZR (nth t cs 0%Z).

Definition nonneg (cs : list Z) : Prop := Forall (fun c => (0 <= c)%Z) cs.

(** Eight months without an article, then nine articles. *)
Definition spike_counts : list Z := [0; 0; 0; 0; 0; 0; 0; 0; 9]%Z.

(** Two articles of category A, in January and in March 2025. *)
Definition gap_articles : list Monthly.article :=
  [ {| Monthly.ym := "2025-01"; Monthly.category := "A" |};
    {| Monthly.ym := "2025-03"; Monthly.category := "A" |} ].

(** The number of grouped rows of a weekly frame that fall in week [w] and
    category [c]. *)
Definition weekly_size (df : list Weekly.news) (w : Z) (c : string) : nat :=
  length (filter (Weekly.key_eqb (w, c)) (Weekly.keys_of df)).

(** An article of category A in January and one of category B in March. *)
Definition two_articles : list Monthly.article :=
  [ {| Monthly.ym := "2025-01"; Monthly.category := "A" |};
    {| Monthly.ym := "2025-03"; Monthly.category := "B" |} ].

(** A news row of category A on Tuesday 1970-01-06 and one of category B a
    week later. *)
Definition two_news : list Weekly.news :=
  [ {| Weekly.date := Some 5%Z; Weekly.category := Some "A"%string |};
    {| Weekly.date := Some 12%Z; Weekly.category := Some "B"%string |} ].

(** Category A has no article in January and two in February; category B
    has one article in each month. *)
Definition late_start : list Monthly.article :=
  [ {| Monthly.ym := "2025-01"; Monthly.category := "B" |};
    {| Monthly.ym := "2025-02"; Monthly.category := "A" |};
    {| Monthly.ym := "2025-02"; Monthly.category := "A" |};
    {| Monthly.ym := "2025-02"; Monthly.category := "B" |} ].

(** [before a b l]: some occurrence of [a] in [l] precedes an occurrence
    of [b]. *)
Inductive before {A : Type} (a b : A) : list A -> Prop :=
| before_here (l : list A) : In b l -> before a b (a :: l)
| before_later (c : A) (l : list A) : before a b l -> before a b (c :: l).

(** What pandas promises of the sort whatever its kind: it rearranges the
    entries it is given. *)
Definition rearranges (kind : sort_kind) : Prop :=
  forall l, Permutation (kind l) l.

(** What only an order-preserving kind promises: among entries that are not
    NaN, two entries with the same value keep their order. *)
Definition keeps_ties_in_place (kind : sort_kind) : Prop :=
  forall l a b,
    Forall (fun c => isna (snd c) = false) l ->
    before a b l -> snd a = snd b -> before a b (kind l).

(** In month [month] of the ranking of [dfc], category [c1] has a better
    rank than category [c2]: of two rows of that month, one of each
    category, the one of [c1] has the smaller rank. *)
Definition ranked_better (kind : sort_kind) (dfc : list Monthly.article)
           (month c1 c2 : string) : Prop :=
  forall r1 r2,
    In r1 (Monthly.viral_results kind dfc) ->
    In r2 (Monthly.viral_results kind dfc) ->
    Monthly.r_ym r1 = month -> Monthly.r_ym r2 = month ->
    Monthly.r_category r1 = c1 -> Monthly.r_category r2 = c2 ->
    (Monthly.r_rank r1 < Monthly.r_rank r2)%nat.

(** The rows of the sheet of month [month] and category [cat]. *)
Definition monthly_rows (df : list Monthly.article) (month cat : string)
  : list Monthly.article :=
  filter (fun r => (Monthly.ym r =? month)%string
                   && (Monthly.category r =? cat)%string) df.

(** The rows of the loaded frame that have a date in week [w] and the
    category [c]. *)
Definition weekly_rows (df : list Weekly.news) (w : Z) (c : string)
  : list Weekly.news :=
  filter (fun r => match Weekly.group_key r with
                   | Some k => Weekly.key_eqb (w, c) k
                   | None => false
                   end) df.

(** An article of category A in January and an unclassified one in
    February. *)
Definition half_classified : list Monthly.article :=
  [ {| Monthly.ym := "2025-01"; Monthly.category := "A" |};
    {| Monthly.ym := "2025-02"; Monthly.category := Monthly.unclassified |} ].

(** Two articles of January: the first one seen has category B, the second
    one category A. *)
Definition tie_articles : list Monthly.article :=
  [ {| Monthly.ym := "2025-01"; Monthly.category := "B" |};
    {| Monthly.ym := "2025-01"; Monthly.category := "A" |} ].

(** What the ranking shows of a row: month, rank and category. *)
Definition rank_view (r : Monthly.viral_result) : string * nat * string :=
  (Monthly.r_ym r, Monthly.r_rank r, Monthly.r_category r).

(** A row that [groupby] keeps: its date and its category are present. *)
Definition has_key (r : Weekly.news) : bool :=
  match Weekly.date r, Weekly.category r with
  | Some _, Some _ => true
  | _, _ => false
  end.

(** The row of the loaded frame that a database row becomes when every
    date text parses. *)
Definition parsed_row (r : Weekly.raw_news) : Weekly.news :=
  {| Weekly.date := match Weekly.news_date r with
                    | Weekly.DateText (Some d) => Some d
                    | _ => None
                    end;
     Weekly.category := Weekly.raw_category r |}.

(** A database row dated Tuesday 1970-01-06, and one whose date text does
    not parse. *)
Definition good_row : Weekly.raw_news :=
  {| Weekly.news_date := Weekly.DateText (Some 5%Z);
     Weekly.raw_category := Some "A"%string |}.
Definition bad_row : Weekly.raw_news :=
  {| Weekly.news_date := Weekly.DateText None;
     Weekly.raw_category := Some "A"%string |}.

(** The example series of the specification: Jan 10, Feb 10, Mar 40. *)
Definition example_counts : series := of_counts [10; 10; 40]%Z.

(** * Properties *)

(** ** Evaluating float expressions *)

Lemma sign_of_pos (x : R) : 0 < x -> sign_of x = Gt.
Proof.
  intros H. unfold sign_of.
  destruct (total_order_T x 0) as [[Hlt | Heq] | Hgt]; [lra | lra | reflexivity].
Qed.

Lemma sign_of_zero (x : R) : x = 0 -> sign_of x = Eq.
Proof.
  intros H. unfold sign_of.
  destruct (total_order_T x 0) as [[Hlt | Heq] | Hgt]; [lra | reflexivity | lra].
Qed.

Lemma sign_of_neg (x : R) : x < 0 -> sign_of x = Lt.
Proof.
  intros H. unfold sign_of.
  destruct (total_order_T x 0) as [[Hlt | Heq] | Hgt]; [reflexivity | lra | lra].
Qed.

Lemma gtb_true (x u : R) : u < x -> gtb x u = true.
Proof. intros H. unfold gtb. destruct (Rlt_dec u x); [reflexivity | lra]. Qed.

Lemma gtb_false (x u : R) : x <= u -> gtb x u = false.
Proof. intros H. unfold gtb. destruct (Rlt_dec u x); [lra | reflexivity]. Qed.

(** Decides the sign tests and comparisons met while a float expression
    over concrete numbers is being evaluated. *)
Ltac fstep :=
  match goal with
  | |- context [sign_of ?x] =>
      first [ rewrite (sign_of_pos x) by (lra || (apply sqrt_lt_R0; lra))
            | rewrite (sign_of_zero x) by lra
            | rewrite (sign_of_neg x) by lra ]
  | |- context [gtb ?x ?u] =>
      first [ rewrite (gtb_true x u) by lra
            | rewrite (gtb_false x u) by lra ]
  | |- context [Rle_dec ?y ?x] =>
      first [ destruct (Rle_dec y x); [| exfalso; lra]
            | destruct (Rle_dec y x); [exfalso; lra |] ]
  end.

Ltac feval := repeat first [progress cbn | fstep].

(** Closes an equation between two evaluated columns (or cells), cell by
    cell. *)
Ltac fin_eq :=
  repeat match goal with
    | |- ?x = ?x => reflexivity
    | |- @cons _ _ _ = @cons _ _ _ => apply f_equal2
    | |- Fin _ = Fin _ => apply f_equal; lra
    end.


(** ** Columns of finite values *)


Lemma of_counts_Fin (cs : list Z) : of_counts cs = map Fin (map IZR cs).
Proof. unfold of_counts. now rewrite map_map. Qed.

Lemma dropna_Fin (xs : list R) : dropna (map Fin xs) = map Fin xs.
Proof.
  unfold dropna. induction xs as [| x xs IH]; cbn; [reflexivity | now rewrite IH].
Qed.

Lemma fold_fadd_Fin (xs : list R) (a : R) :
  fold_left fadd (map Fin xs) (Fin a) = Fin (fold_left Rplus xs a).
Proof.
  revert a. induction xs as [| x xs IH]; intros a; cbn; [reflexivity | apply IH].
Qed.

Lemma fsum_Fin (xs : list R) : fsum (map Fin xs) = Fin (Rsum xs).
Proof. apply fold_fadd_Fin. Qed.

Lemma fold_Rplus_shift (xs : list R) (a : R) :
  fold_left Rplus xs a = a + Rsum xs.
Proof.
  unfold Rsum. revert a. induction xs as [| x xs IH]; intros a; cbn.
  - lra.
  - rewrite (IH (a + x)), (IH (0 + x)). lra.
Qed.

Lemma Rsum_cons (x : R) (xs : list R) : Rsum (x :: xs) = x + Rsum xs.
Proof. unfold Rsum at 1. cbn. rewrite fold_Rplus_shift. lra. Qed.

Lemma Rsum_nonneg (xs : list R) : Forall (fun x => 0 <= x) xs -> 0 <= Rsum xs.
Proof.
  induction 1 as [| x xs Hx _ IH].
  - unfold Rsum. cbn. lra.
  - rewrite Rsum_cons. lra.
Qed.

Lemma INR_length_pos {A} (l : list A) : l <> [] -> 0 < INR (length l).
Proof.
  destruct l as [| a l]; [congruence | intros _].
  apply lt_0_INR. cbn. lia.
Qed.

Lemma fdiv_Fin (x y : R) : y <> 0 -> (Fin x / Fin y)%fl = Fin (x / y).
Proof.
  intros Hy. unfold fdiv, sign_of.
  destruct (total_order_T y 0) as [[Hlt | Heq] | Hgt]; [reflexivity | lra | reflexivity].
Qed.

Lemma fsqrt_Fin (x : R) : 0 <= x -> fsqrt (Fin x) = Fin (sqrt x).
Proof.
  intros Hx. unfold fsqrt, sign_of.
  destruct (total_order_T x 0) as [[Hlt | Heq] | Hgt]; [lra | reflexivity | reflexivity].
Qed.

(** The mean of a non-empty column of finite values. *)
Lemma mean_Fin (xs : list R) :
  xs <> [] -> mean (map Fin xs) = Fin (Rsum xs / INR (length xs)).
Proof.
  intros Hne. unfold mean. rewrite dropna_Fin, fsum_Fin, length_map.
  apply fdiv_Fin. pose proof (INR_length_pos xs Hne). lra.
Qed.


Lemma sqdev_nonneg (avg : R) (xs : list R) : 0 <= sqdev avg xs.
Proof.
  unfold sqdev. apply Rsum_nonneg. apply Forall_forall.
  intros y Hy. apply in_map_iff in Hy as [x [<- _]]. apply Rle_0_sqr.
Qed.


Lemma sample_var_nonneg (xs : list R) :
  (2 <= length xs)%nat -> 0 <= sample_var xs.
Proof.
  intros Hn. unfold sample_var.
  assert (0 < INR (length xs - 1)) by (apply lt_0_INR; lia).
  pose proof (sqdev_nonneg (Rsum xs / INR (length xs)) xs).
  apply Rmult_le_pos; [assumption |].
  left. now apply Rinv_0_lt_compat.
Qed.

(** The standard deviation of a column of at least two finite values. *)
Lemma std_Fin (xs : list R) :
  (2 <= length xs)%nat -> std (map Fin xs) = Fin (sqrt (sample_var xs)).
Proof.
  intros Hn. unfold std. rewrite dropna_Fin, length_map.
  destruct (Nat.leb_spec (length xs) 1) as [Hle | Hgt]; [lia |].
  rewrite fsum_Fin.
  assert (Hne : xs <> []) by (destruct xs; [cbn in Hn; lia | congruence]).
  pose proof (INR_length_pos xs Hne) as Hpos.
  rewrite fdiv_Fin by lra.
  rewrite map_map. cbn.
  replace (map (fun x => Fin ((Rsum xs / INR (length xs) + - x)
                              * (Rsum xs / INR (length xs) + - x))) xs)
    with (map Fin (map (fun x => (Rsum xs / INR (length xs) - x)
                                 * (Rsum xs / INR (length xs) - x)) xs))
    by (rewrite map_map; reflexivity).
  rewrite fsum_Fin.
  assert (0 < INR (length xs - 1)) by (apply lt_0_INR; lia).
  rewrite fdiv_Fin by lra.
  apply fsqrt_Fin. now apply sample_var_nonneg.
Qed.

(** ** The example of the specification on the monthly script *)

Lemma mean_example : mean example_counts = Fin 20.
Proof. unfold example_counts, mean. feval. fin_eq. Qed.

Lemma std_example : std example_counts = Fin (sqrt 300).
Proof.
  unfold example_counts. rewrite of_counts_Fin, std_Fin by (cbn; lia).
  do 2 f_equal. unfold sample_var, sqdev, Rsum. cbn. lra.
Qed.

Lemma sqrt_300_bounds : 17.32 < sqrt 300 < 17.33.
Proof.
  split.
  - rewrite <- (sqrt_square 17.32) by lra. apply sqrt_lt_1_alt. lra.
  - rewrite <- (sqrt_square 17.33) by lra. apply sqrt_lt_1_alt. lra.
Qed.

Lemma sqrt_200_bounds : 14.14 < sqrt 200 < 14.15.
Proof.
  split.
  - rewrite <- (sqrt_square 14.14) by lra. apply sqrt_lt_1_alt. lra.
  - rewrite <- (sqrt_square 14.15) by lra. apply sqrt_lt_1_alt. lra.
Qed.

Lemma mom_growth_example :
  Monthly.mom_growth example_counts = [NaN; Fin 0; Fin 300].
Proof. unfold example_counts. feval. fin_eq. Qed.

Lemma ma3_example : Monthly.ma3 example_counts = [Fin 10; Fin 10; Fin 20].
Proof. unfold example_counts. feval. fin_eq. Qed.

Lemma ma_deviation_example :
  Monthly.ma_deviation example_counts = [Fin 0; Fin 0; Fin 100].
Proof.
  unfold Monthly.ma_deviation. rewrite ma3_example.
  unfold example_counts. feval. fin_eq.
Qed.

Lemma z_scores_example :
  Monthly.z_scores example_counts =
  [Fin (-10 / sqrt 300); Fin (-10 / sqrt 300); Fin (20 / sqrt 300)].
Proof.
  unfold Monthly.z_scores. rewrite mean_example, std_example.
  unfold example_counts. feval.
  fin_eq.
Qed.

Lemma viral_index_example :
  Monthly.viral_index example_counts =
  [Fin (-10 / sqrt 300 * 20 * 0.2);
   Fin (-10 / sqrt 300 * 20 * 0.2);
   Fin (300 * 0.5 + 100 * 0.3 + 20 / sqrt 300 * 20 * 0.2)].
Proof.
  unfold Monthly.viral_index, Monthly.growth_term, Monthly.deviation_term,
    Monthly.z_term.
  rewrite mom_growth_example, ma_deviation_example, z_scores_example.
  feval. fin_eq.
Qed.

Lemma Rdiv_between (a s lo hi : R) :
  0 < s -> lo * s < a -> a < hi * s -> lo < a / s < hi.
Proof.
  intros Hs Hlo Hhi.
  assert (Hq : a / s * s = a) by (field; lra).
  set (q := a / s) in *. clearbody q. subst a.
  split; apply Rmult_lt_reg_r with (r := s); assumption.
Qed.

Lemma z_example_bounds : 1.154 < 20 / sqrt 300 < 1.155.
Proof.
  pose proof sqrt_300_bounds as [Hlo Hhi].
  apply Rdiv_between; lra.
Qed.

(** C1, as amended.  On the series Jan 10, Feb 10, Mar 40 the monthly script
    computes: growth[Mar] = (40/10 - 1)*100 = 300; the three-month average
    20 and deviation[Mar] = (40-20)/20*100 = 100; mean 20 and the sample
    standard deviation sqrt(300), so z[Mar] = 20/sqrt(300), about 1.1547;
    and composite[Mar] = 300*0.5 + 100*0.3 + z*20*0.2, between 184.61 and
    184.62. *)
Theorem C1_monthly_example_chain :
  Monthly.mom_growth example_counts = [NaN; Fin 0; Fin 300] /\
  Monthly.ma3 example_counts = [Fin 10; Fin 10; Fin 20] /\
  Monthly.ma_deviation example_counts = [Fin 0; Fin 0; Fin 100] /\
  mean example_counts = Fin 20 /\
  std example_counts = Fin (sqrt 300) /\
  nth 2 (Monthly.z_scores example_counts) NaN = Fin (20 / sqrt 300) /\
  1.154 < 20 / sqrt 300 < 1.155 /\
  nth 2 (Monthly.viral_index example_counts) NaN
  = Fin (300 * 0.5 + 100 * 0.3 + 20 / sqrt 300 * 20 * 0.2) /\
  184.61 < 300 * 0.5 + 100 * 0.3 + 20 / sqrt 300 * 20 * 0.2 < 184.62.
Proof.
  pose proof z_example_bounds as Hz.
  repeat split;
    first [ apply mom_growth_example | apply ma3_example
          | apply ma_deviation_example | apply mean_example
          | apply std_example
          | rewrite z_scores_example; reflexivity
          | rewrite viral_index_example; reflexivity
          | lra ].
Qed.

(** C1, as stated, fails on the monthly script: at Mar the growth is not
    (40-10)/(10+1)*100, the deviation is not (40-20)/(20+1)*100, the
    Z-score is not the population one 20/sqrt(200), and the composite is
    more than 16 above 167.8. *)
Lemma C1_counterexample :
  nth 2 (Monthly.mom_growth example_counts) NaN
    <> Fin ((40 - 10) / (10 + 1) * 100) /\
  nth 2 (Monthly.ma_deviation example_counts) NaN
    <> Fin ((40 - 20) / (20 + 1) * 100) /\
  nth 2 (Monthly.z_scores example_counts) NaN <> Fin ((40 - 20) / sqrt 200) /\
  nth 2 (Monthly.viral_index example_counts) NaN
    = Fin (300 * 0.5 + 100 * 0.3 + 20 / sqrt 300 * 20 * 0.2) /\
  167.8 + 16 < 300 * 0.5 + 100 * 0.3 + 20 / sqrt 300 * 20 * 0.2.
Proof.
  pose proof z_example_bounds as Hz.
  rewrite mom_growth_example, ma_deviation_example, z_scores_example,
    viral_index_example.
  cbn. repeat split.
  - intros H. injection H as H. lra.
  - intros H. injection H as H. lra.
  - intros H. injection H as H.
    pose proof sqrt_200_bounds as [Hlo Hhi].
    assert (Hq : 1.4 < 20 / sqrt 200 < 1.42) by (apply Rdiv_between; lra).
    replace (40 - 20) with 20 in H by lra. lra.
  - lra.
Qed.

(** ** Cells of derived columns *)

Lemma nth_map_NaN (f : float -> float) (s : series) (t : nat) :
  (t < length s)%nat -> nth t (map f s) NaN = f (nth t s NaN).
Proof.
  intros Ht. rewrite (nth_indep _ NaN (f NaN)) by (now rewrite length_map).
  apply map_nth.
Qed.

Lemma length_zip_with (f : float -> float -> float) (a b : series) :
  length b = length a -> length (zip_with f a b) = length a.
Proof.
  intros Hl. unfold zip_with. rewrite length_map, length_combine. lia.
Qed.

Lemma nth_zip_with (f : float -> float -> float) (a b : series) (t : nat) :
  length b = length a -> (t < length a)%nat ->
  nth t (zip_with f a b) NaN = f (nth t a NaN) (nth t b NaN).
Proof.
  intros Hl Ht. unfold zip_with.
  rewrite (nth_indep _ NaN ((fun p => f (fst p) (snd p)) (NaN, NaN)))
    by (rewrite length_map, length_combine; lia).
  rewrite (map_nth (fun p => f (fst p) (snd p))).
  rewrite combine_nth by (symmetry; exact Hl). reflexivity.
Qed.

Lemma length_shift1 (s : series) : length (shift1 s) = length s.
Proof.
  destruct s as [| a s]; [reflexivity |].
  unfold shift1. cbn [length]. rewrite removelast_firstn_len, length_firstn.
  cbn [length]. lia.
Qed.

Lemma nth_shift1_succ (s : series) (t : nat) :
  (S t < length s)%nat -> nth (S t) (shift1 s) NaN = nth t s NaN.
Proof.
  intros Ht. destruct s as [| a s]; [cbn in Ht; lia |].
  unfold shift1. cbn [nth]. rewrite removelast_firstn_len, nth_firstn.
  cbn [length] in *. destruct (Nat.ltb_spec t (Nat.pred (S (length s)))); [reflexivity | lia].
Qed.

Lemma length_bcast (s : series) (a : float) : length (bcast s a) = length s.
Proof. apply length_map. Qed.

Lemma nth_bcast (s : series) (a : float) (t : nat) :
  (t < length s)%nat -> nth t (bcast s a) NaN = a.
Proof.
  intros Ht. unfold bcast.
  rewrite (nth_indep _ NaN ((fun _ : float => a) NaN)) by (now rewrite length_map).
  now rewrite (map_nth (fun _ : float => a)).
Qed.

Lemma length_rolling_mean (w : nat) (s : series) :
  length (rolling_mean w s) = length s.
Proof. unfold rolling_mean. now rewrite length_map, length_seq. Qed.

Lemma nth_rolling_mean (w : nat) (s : series) (t : nat) :
  (t < length s)%nat -> nth t (rolling_mean w s) NaN = mean (window w s t).
Proof.
  intros Ht. unfold rolling_mean.
  rewrite (nth_indep _ NaN ((fun t => mean (window w s t)) 0%nat))
    by (now rewrite length_map, length_seq).
  rewrite (map_nth (fun t => mean (window w s t))).
  now rewrite seq_nth.
Qed.

Lemma window_Fin (w : nat) (xs : list R) (t : nat) :
  window w (map Fin xs) t = map Fin (window_values w xs t).
Proof. unfold window, window_values. now rewrite firstn_map, skipn_map. Qed.

Lemma Forall_firstn {A} (P : A -> Prop) (n : nat) (l : list A) :
  Forall P l -> Forall P (firstn n l).
Proof.
  intros H. rewrite <- (firstn_skipn n l) in H. now apply Forall_app in H.
Qed.

Lemma Forall_skipn {A} (P : A -> Prop) (n : nat) (l : list A) :
  Forall P l -> Forall P (skipn n l).
Proof.
  intros H. rewrite <- (firstn_skipn n l) in H. now apply Forall_app in H.
Qed.

Lemma window_values_nonempty (w : nat) (xs : list R) (t : nat) :
  (1 <= w)%nat -> (t < length xs)%nat -> window_values w xs t <> [].
Proof.
  intros Hw Ht Hnil. apply (f_equal (@length R)) in Hnil.
  unfold window_values in Hnil.
  rewrite length_skipn, length_firstn in Hnil. cbn [length] in Hnil. lia.
Qed.

(** A rolling mean over non-negative values is a non-negative number. *)
Lemma rolling_mean_cell (w : nat) (xs : list R) (t : nat) :
  (1 <= w)%nat -> (t < length xs)%nat ->
  nth t (rolling_mean w (map Fin xs)) NaN = Fin (rolling_avg w xs t).
Proof.
  intros Hw Ht.
  rewrite nth_rolling_mean by (now rewrite length_map).
  rewrite window_Fin. apply mean_Fin. now apply window_values_nonempty.
Qed.

Lemma rolling_mean_nonneg (w : nat) (xs : list R) (t : nat) :
  (1 <= w)%nat -> (t < length xs)%nat -> Forall (fun x => 0 <= x) xs ->
  0 <= rolling_avg w xs t.
Proof.
  intros Hw Ht Hnn. unfold rolling_avg.
  pose proof (INR_length_pos _ (window_values_nonempty w xs t Hw Ht)) as Hpos.
  assert (0 <= Rsum (window_values w xs t)).
  { apply Rsum_nonneg. unfold window_values.
    now apply Forall_skipn, Forall_firstn. }
  apply Rmult_le_pos; [assumption |].
  left. now apply Rinv_0_lt_compat.
Qed.

Lemma nth_Fin (xs : list R) (t : nat) :
  (t < length xs)%nat -> nth t (map Fin xs) NaN = Fin (nth t xs 0).
Proof.
  intros Ht. rewrite (nth_indep _ NaN (Fin 0)) by (now rewrite length_map).
  apply map_nth.
Qed.

Lemma nth_nonneg (xs : list R) (t : nat) :
  Forall (fun x => 0 <= x) xs -> 0 <= nth t xs 0.
Proof.
  intros H. destruct (Nat.lt_ge_cases t (length xs)) as [Hlt | Hge].
  - rewrite Forall_forall in H. apply H. now apply nth_In.
  - rewrite nth_overflow by assumption. lra.
Qed.

(** ** Every derived column has the length of the count column *)

Lemma length_wow_growth (s : series) : length (Weekly.wow_growth s) = length s.
Proof.
  unfold Weekly.wow_growth, Weekly.growth_divisor, Weekly.prev_counts.
  rewrite length_map.
  assert (Hl : length (zip_with fsub s (shift1 s)) = length s)
    by (apply length_zip_with, length_shift1).
  rewrite length_zip_with; [exact Hl |].
  now rewrite length_map, length_shift1, Hl.
Qed.

Lemma length_weekly_ma_deviation (s : series) :
  length (Weekly.ma_deviation s) = length s.
Proof.
  unfold Weekly.ma_deviation, Weekly.deviation_divisor, Weekly.ma4.
  rewrite length_map.
  assert (Hl : length (zip_with fsub s (rolling_mean 4 s)) = length s)
    by (apply length_zip_with, length_rolling_mean).
  rewrite length_zip_with; [exact Hl |].
  now rewrite length_map, length_rolling_mean, Hl.
Qed.

Lemma length_weekly_z_scores (s : series) :
  length (Weekly.z_scores s) = length s.
Proof.
  unfold Weekly.z_scores.
  assert (Hl : length (zip_with fsub s (bcast s (mean s))) = length s)
    by (apply length_zip_with, length_bcast).
  rewrite length_zip_with; [exact Hl |].
  now rewrite length_bcast, Hl.
Qed.

Lemma length_mom_growth (s : series) : length (Monthly.mom_growth s) = length s.
Proof.
  unfold Monthly.mom_growth, pct_change. rewrite !length_map.
  apply length_zip_with, length_shift1.
Qed.

Lemma length_monthly_ma_deviation (s : series) :
  length (Monthly.ma_deviation s) = length s.
Proof.
  unfold Monthly.ma_deviation, Monthly.ma3.
  rewrite length_map.
  assert (Hl : length (zip_with fsub s (rolling_mean 3 s)) = length s)
    by (apply length_zip_with, length_rolling_mean).
  rewrite length_zip_with; [exact Hl |].
  now rewrite length_rolling_mean, Hl.
Qed.

Lemma length_monthly_z_scores (s : series) :
  length (Monthly.z_scores s) = length s.
Proof.
  unfold Monthly.z_scores.
  assert (Hl : length (zip_with fsub s (bcast s (mean s))) = length s)
    by (apply length_zip_with, length_bcast).
  rewrite length_zip_with; [exact Hl |].
  now rewrite length_bcast, Hl.
Qed.

Lemma length_of_counts (cs : list Z) : length (of_counts cs) = length cs.
Proof. apply length_map. Qed.

(** ** The weekly signals, cell by cell *)

Lemma weekly_growth_divisor_cell (xs : list R) (t : nat) :
  (S t < length xs)%nat ->
  nth (S t) (Weekly.growth_divisor (map Fin xs)) NaN = Fin (nth t xs 0 + 1).
Proof.
  intros Ht. unfold Weekly.growth_divisor, Weekly.prev_counts.
  rewrite nth_map_NaN by (now rewrite length_shift1, length_map).
  rewrite nth_shift1_succ by (now rewrite length_map).
  rewrite nth_Fin by lia. reflexivity.
Qed.

Lemma weekly_growth_cell (xs : list R) (t : nat) :
  (S t < length xs)%nat -> 0 <= nth t xs 0 ->
  nth (S t) (Weekly.wow_growth (map Fin xs)) NaN
  = Fin ((nth (S t) xs 0 - nth t xs 0) / (nth t xs 0 + 1) * 100).
Proof.
  intros Ht Hp. unfold Weekly.wow_growth.
  assert (Hl1 : length (Weekly.prev_counts (map Fin xs)) = length (map Fin xs))
    by apply length_shift1.
  assert (Hl2 : length (Weekly.growth_divisor (map Fin xs)) = length (map Fin xs))
    by (unfold Weekly.growth_divisor; now rewrite length_map).
  assert (Hl3 : length (zip_with fsub (map Fin xs) (Weekly.prev_counts (map Fin xs)))
                = length (map Fin xs)) by (now apply length_zip_with).
  assert (Ht' : (S t < length (map Fin xs))%nat) by (now rewrite length_map).
  rewrite nth_map_NaN by (rewrite length_zip_with; lia).
  rewrite nth_zip_with by lia.
  rewrite nth_zip_with by lia.
  rewrite weekly_growth_divisor_cell by assumption.
  unfold Weekly.prev_counts. rewrite nth_shift1_succ by assumption.
  rewrite !nth_Fin by lia.
  cbn. rewrite (sign_of_pos (nth t xs 0 + 1)) by lra. reflexivity.
Qed.

Lemma weekly_growth_first (s : series) :
  s <> [] -> nth 0 (Weekly.wow_growth s) NaN = NaN.
Proof.
  destruct s as [| a s]; [congruence | intros _].
  cbn. now destruct a.
Qed.

Lemma weekly_deviation_divisor_cell (xs : list R) (t : nat) :
  (t < length xs)%nat ->
  nth t (Weekly.deviation_divisor (map Fin xs)) NaN
  = Fin (rolling_avg 4 xs t + 1).
Proof.
  intros Ht. unfold Weekly.deviation_divisor, Weekly.ma4.
  rewrite nth_map_NaN by (now rewrite length_rolling_mean, length_map).
  rewrite rolling_mean_cell by (lia || assumption). reflexivity.
Qed.

Lemma weekly_deviation_cell (xs : list R) (t : nat) :
  (t < length xs)%nat -> Forall (fun x => 0 <= x) xs ->
  nth t (Weekly.ma_deviation (map Fin xs)) NaN
  = Fin ((nth t xs 0 - rolling_avg 4 xs t) / (rolling_avg 4 xs t + 1) * 100).
Proof.
  intros Ht Hnn. unfold Weekly.ma_deviation.
  assert (Hl1 : length (Weekly.ma4 (map Fin xs)) = length (map Fin xs))
    by apply length_rolling_mean.
  assert (Hl2 : length (Weekly.deviation_divisor (map Fin xs))
                = length (map Fin xs))
    by (unfold Weekly.deviation_divisor; now rewrite length_map).
  assert (Hl3 : length (zip_with fsub (map Fin xs) (Weekly.ma4 (map Fin xs)))
                = length (map Fin xs)) by (now apply length_zip_with).
  assert (Ht' : (t < length (map Fin xs))%nat) by (now rewrite length_map).
  rewrite nth_map_NaN by (rewrite length_zip_with; lia).
  rewrite nth_zip_with by lia.
  rewrite nth_zip_with by lia.
  rewrite weekly_deviation_divisor_cell by assumption.
  unfold Weekly.ma4. rewrite rolling_mean_cell by (lia || assumption).
  rewrite nth_Fin by lia.
  pose proof (rolling_mean_nonneg 4 xs t ltac:(lia) Ht Hnn).
  cbn. rewrite (sign_of_pos (rolling_avg 4 xs t + 1)) by lra. reflexivity.
Qed.

(** With non-negative counts the [+1] quotient stays above -100 percent. *)
Lemma offset_ratio_lower (c p : R) :
  0 <= c -> 0 <= p -> -100 < (c - p) / (p + 1) * 100.
Proof.
  intros Hc Hp.
  assert (Hq : -1 < (c - p) / (p + 1) < c + 1) by (apply Rdiv_between; nra).
  lra.
Qed.

Lemma clip_upper_fill (g : R) :
  -100 < g ->
  exists g', fillna0 (clip_upper 300 (Fin g)) = Fin g' /\ -100 < g' <= 300.
Proof.
  intros Hg. unfold clip_upper, gtb.
  destruct (Rlt_dec 300 g) as [Hgt | Hle]; cbn.
  - exists 300. split; [reflexivity | lra].
  - exists g. split; [reflexivity | lra].
Qed.

Lemma weight_bound (g w : R) :
  -100 < g <= 300 -> 0 <= w -> Rabs (g * w) <= 300 * w.
Proof.
  intros Hg Hw. apply Rabs_le. split; nra.
Qed.

Lemma reals_nonneg (cs : list Z) :
  nonneg cs -> Forall (fun x => 0 <= x) (reals cs).
Proof.
  unfold nonneg, reals. intros H. apply Forall_map.
  eapply Forall_impl; [| exact H]. intros c Hc. cbn beta. now apply IZR_le.
Qed.

Lemma nth_reals (cs : list Z) (t : nat) : nth t (reals cs) 0 = count_at cs t.
Proof. unfold reals, count_at. change 0 with (IZR 0). apply map_nth. Qed.

Lemma of_counts_reals (cs : list Z) : of_counts cs = map Fin (reals cs).
Proof. apply of_counts_Fin. Qed.

Lemma length_reals (cs : list Z) : length (reals cs) = length cs.
Proof. apply length_map. Qed.

Lemma count_at_nonneg (cs : list Z) (t : nat) : nonneg cs -> 0 <= count_at cs t.
Proof.
  intros H. rewrite <- nth_reals. apply nth_nonneg. now apply reals_nonneg.
Qed.


(** ** C2: division by zero *)

(** C2, as amended.  In the weekly script, for every column of non-negative
    counts and every row: the divisor [ma4 + 1] of the deviation is a number
    that is at least 1, and the deviation is the finite quotient
    (count - ma4)/(ma4 + 1)*100; in the first row the growth has no previous
    count (NaN, nothing is divided by zero); in every later row the divisor
    [prev + 1] of the growth is at least 1 and the growth is the finite
    quotient (count - prev)/(prev + 1)*100. *)
Theorem C2_weekly_divisors_at_least_one (cs : list Z) (t : nat) :
  nonneg cs -> (t < length cs)%nat ->
  (nth t (Weekly.deviation_divisor (of_counts cs)) NaN
     = Fin (rolling_avg 4 (reals cs) t + 1)
   /\ 1 <= rolling_avg 4 (reals cs) t + 1
   /\ nth t (Weekly.ma_deviation (of_counts cs)) NaN
      = Fin ((count_at cs t - rolling_avg 4 (reals cs) t)
             / (rolling_avg 4 (reals cs) t + 1) * 100))
  /\ (t = 0%nat ->
      nth t (Weekly.growth_divisor (of_counts cs)) NaN = NaN
      /\ nth t (Weekly.wow_growth (of_counts cs)) NaN = NaN)
  /\ (forall u, t = S u ->
      nth t (Weekly.growth_divisor (of_counts cs)) NaN
        = Fin (count_at cs u + 1)
      /\ 1 <= count_at cs u + 1
      /\ nth t (Weekly.wow_growth (of_counts cs)) NaN
         = Fin ((count_at cs t - count_at cs u) / (count_at cs u + 1) * 100)).
Proof.
  intros Hnn Ht. rewrite of_counts_reals.
  pose proof (reals_nonneg cs Hnn) as Hr.
  assert (Htr : (t < length (reals cs))%nat) by (now rewrite length_reals).
  split; [| split].
  - split; [| split].
    + now apply weekly_deviation_divisor_cell.
    + pose proof (rolling_mean_nonneg 4 (reals cs) t ltac:(lia) Htr Hr). lra.
    + rewrite weekly_deviation_cell by assumption. now rewrite nth_reals.
  - intros ->. destruct cs as [| c cs]; [cbn in Ht; lia |]. split; reflexivity.
  - intros u ->. split; [| split].
    + rewrite weekly_growth_divisor_cell by assumption. now rewrite nth_reals.
    + pose proof (count_at_nonneg cs u Hnn). lra.
    + rewrite weekly_growth_cell; [now rewrite !nth_reals | assumption |].
      rewrite nth_reals. now apply count_at_nonneg.
Qed.

Lemma C2_weekly_divisors_witness :
  nth 1 (Weekly.wow_growth (of_counts [0; 5]%Z)) NaN
  = Fin ((count_at [0; 5]%Z 1 - count_at [0; 5]%Z 0)
         / (count_at [0; 5]%Z 0 + 1) * 100).
Proof.
  destruct (C2_weekly_divisors_at_least_one [0; 5]%Z 1) as (_ & _ & H).
  - repeat constructor; lia.
  - cbn; lia.
  - apply (H 0%nat eq_refl).
Defined.

(** C2, as stated, fails on the monthly script.  With counts 0 then 5 the
    divisor of [pct_change] in the second row is 0 and the growth is
    infinite instead of (5-0)/(0+1)*100; with counts 0 then 0 the divisor
    [ma3] of the deviation is 0 in both rows and the deviation is NaN. *)
Lemma C2_counterexample :
  nth 1 (shift1 (of_counts [0; 5]%Z)) NaN = Fin 0 /\
  Monthly.mom_growth (of_counts [0; 5]%Z) = [NaN; PInf] /\
  nth 1 (Monthly.mom_growth (of_counts [0; 5]%Z)) NaN
    <> Fin ((5 - 0) / (0 + 1) * 100) /\
  Monthly.ma3 (of_counts [0; 0]%Z) = [Fin 0; Fin 0] /\
  Monthly.ma_deviation (of_counts [0; 0]%Z) = [NaN; NaN].
Proof.
  assert (Hg : Monthly.mom_growth (of_counts [0; 5]%Z) = [NaN; PInf])
    by (feval; reflexivity).
  assert (Hm : Monthly.ma3 (of_counts [0; 0]%Z) = [Fin 0; Fin 0])
    by (feval; fin_eq).
  repeat split.
  - exact Hg.
  - rewrite Hg. cbn. discriminate.
  - exact Hm.
  - unfold Monthly.ma_deviation. rewrite Hm. feval. reflexivity.
Qed.

(** ** C4: the clipped growth and deviation *)

(** C4, as amended.  In the weekly script, for every column of non-negative
    counts and every row, the growth and the deviation are clipped to at
    most 300 (NaN becoming 0) before they are weighted, they stay above
    -100, and each of the two terms of the composite is a number of
    absolute value at most 300 times its weight 0.4. *)
Theorem C4_weekly_growth_deviation_bounded (cs : list Z) (t : nat) :
  nonneg cs -> (t < length cs)%nat ->
  exists g d : R,
    fillna0 (clip_upper 300 (nth t (Weekly.wow_growth (of_counts cs)) NaN))
      = Fin g
    /\ -100 < g <= 300
    /\ nth t (Weekly.growth_term (of_counts cs)) NaN = Fin (g * 0.4)
    /\ Rabs (g * 0.4) <= 300 * 0.4
    /\ fillna0 (clip_upper 300 (nth t (Weekly.ma_deviation (of_counts cs)) NaN))
      = Fin d
    /\ -100 < d <= 300
    /\ nth t (Weekly.deviation_term (of_counts cs)) NaN = Fin (d * 0.4)
    /\ Rabs (d * 0.4) <= 300 * 0.4.
Proof.
  intros Hnn Ht.
  pose proof (reals_nonneg cs Hnn) as Hr.
  assert (Htr : (t < length (reals cs))%nat) by (now rewrite length_reals).
  assert (Hg : exists g,
             fillna0 (clip_upper 300 (nth t (Weekly.wow_growth (of_counts cs)) NaN))
             = Fin g /\ -100 < g <= 300).
  { destruct t as [| u].
    - rewrite weekly_growth_first by (destruct cs; [cbn in Ht; lia | discriminate]).
      exists 0. cbn. split; [reflexivity | lra].
    - rewrite of_counts_reals, weekly_growth_cell;
        [| assumption | now apply nth_nonneg].
      apply clip_upper_fill. apply offset_ratio_lower; now apply nth_nonneg. }
  assert (Hd : exists d,
             fillna0 (clip_upper 300 (nth t (Weekly.ma_deviation (of_counts cs)) NaN))
             = Fin d /\ -100 < d <= 300).
  { rewrite of_counts_reals, weekly_deviation_cell by assumption.
    apply clip_upper_fill. apply offset_ratio_lower.
    - now apply nth_nonneg.
    - now apply rolling_mean_nonneg; [lia | |]. }
  destruct Hg as (g & Hg & Hgb). destruct Hd as (d & Hd & Hdb).
  exists g, d.
  assert (Hlg : (t < length (Weekly.wow_growth (of_counts cs)))%nat)
    by (now rewrite length_wow_growth, length_of_counts).
  assert (Hld : (t < length (Weekly.ma_deviation (of_counts cs)))%nat)
    by (now rewrite length_weekly_ma_deviation, length_of_counts).
  repeat split; try assumption; try lra.
  - unfold Weekly.growth_term. rewrite nth_map_NaN by assumption.
    rewrite Hg. reflexivity.
  - apply weight_bound; lra.
  - unfold Weekly.deviation_term. rewrite nth_map_NaN by assumption.
    rewrite Hd. reflexivity.
  - apply weight_bound; lra.
Qed.

Lemma C4_weekly_bounded_witness :
  exists g d : R,
    fillna0 (clip_upper 300 (nth 1 (Weekly.wow_growth (of_counts [10; 50]%Z)) NaN))
      = Fin g
    /\ -100 < g <= 300
    /\ nth 1 (Weekly.growth_term (of_counts [10; 50]%Z)) NaN = Fin (g * 0.4)
    /\ Rabs (g * 0.4) <= 300 * 0.4
    /\ fillna0 (clip_upper 300 (nth 1 (Weekly.ma_deviation (of_counts [10; 50]%Z)) NaN))
      = Fin d
    /\ -100 < d <= 300
    /\ nth 1 (Weekly.deviation_term (of_counts [10; 50]%Z)) NaN = Fin (d * 0.4)
    /\ Rabs (d * 0.4) <= 300 * 0.4.
Proof.
  apply (C4_weekly_growth_deviation_bounded [10; 50]%Z 1).
  - repeat constructor; lia.
  - cbn; lia.
Defined.

(** C4, as stated, fails on the monthly script, which clips nothing: with
    counts 10 then 50 the growth is 400 and its term in the composite is
    200, above 300 times the weight 0.5. *)
Lemma C4_counterexample :
  nth 1 (Monthly.mom_growth (of_counts [10; 50]%Z)) NaN = Fin 400 /\
  nth 1 (Monthly.growth_term (of_counts [10; 50]%Z)) NaN = Fin 200 /\
  300 * 0.5 < Rabs 200.
Proof.
  assert (Hg : Monthly.mom_growth (of_counts [10; 50]%Z) = [NaN; Fin 400])
    by (feval; fin_eq).
  repeat split.
  - now rewrite Hg.
  - unfold Monthly.growth_term. rewrite Hg. feval. fin_eq.
  - rewrite Rabs_pos_eq; lra.
Qed.

(** ** C5: the clipped and scaled Z-score *)

Lemma clip_fill_range (a : float) :
  exists z, fillna0 (clip (-3) 3 a) = Fin z /\ -3 <= z <= 3.
Proof.
  destruct a as [x | | |]; unfold clip, clip_lower, clip_upper, gtb; cbn.
  - destruct (Rlt_dec x (-3)) as [Hlo | Hlo].
    + destruct (Rlt_dec 3 (-3)); [lra |]. exists (-3). cbn. split; [reflexivity | lra].
    + destruct (Rlt_dec 3 x) as [Hhi | Hhi]; cbn.
      * exists 3. split; [reflexivity | lra].
      * exists x. split; [reflexivity | lra].
  - exists 3. split; [reflexivity | lra].
  - destruct (Rlt_dec 3 (-3)); [lra |]. exists (-3). cbn. split; [reflexivity | lra].
  - exists 0. split; [reflexivity | lra].
Qed.

(** C5, as amended.  In the weekly script, for every column and every row,
    the Z-score is clipped to [-3, 3] (NaN becoming 0), then multiplied by
    10 and by the weight 0.2, so its term in the composite is a number of
    absolute value at most 30 times 0.2. *)
Theorem C5_weekly_z_term_bounded (count : series) (t : nat) :
  (t < length count)%nat ->
  exists z : R,
    fillna0 (clip (-3) 3 (nth t (Weekly.z_scores count) NaN)) = Fin z
    /\ -3 <= z <= 3
    /\ nth t (Weekly.z_term count) NaN = Fin (z * 10 * 0.2)
    /\ Rabs (z * 10 * 0.2) <= 30 * 0.2.
Proof.
  intros Ht.
  destruct (clip_fill_range (nth t (Weekly.z_scores count) NaN)) as (z & Hz & Hb).
  exists z. repeat split; try assumption; try lra.
  - unfold Weekly.z_term.
    rewrite nth_map_NaN by (now rewrite length_weekly_z_scores).
    rewrite Hz. reflexivity.
  - apply Rabs_le. lra.
Qed.

Lemma C5_weekly_z_term_witness :
  exists z : R,
    fillna0 (clip (-3) 3 (nth 1 (Weekly.z_scores [Fin 0; PInf; NaN]) NaN)) = Fin z
    /\ -3 <= z <= 3
    /\ nth 1 (Weekly.z_term [Fin 0; PInf; NaN]) NaN = Fin (z * 10 * 0.2)
    /\ Rabs (z * 10 * 0.2) <= 30 * 0.2.
Proof.
  apply (C5_weekly_z_term_bounded [Fin 0; PInf; NaN] 1). cbn; lia.
Defined.

Lemma mean_spike : mean (of_counts spike_counts) = Fin 1.
Proof. unfold spike_counts, mean. feval. fin_eq. Qed.

Lemma std_spike : std (of_counts spike_counts) = Fin 3.
Proof.
  unfold spike_counts. rewrite of_counts_Fin, std_Fin by (cbn; lia).
  f_equal. rewrite <- (sqrt_square 3) by lra. f_equal.
  unfold sample_var, sqdev, Rsum. cbn. lra.
Qed.

(** C5, as stated, fails on the monthly script, which neither clips the
    Z-score nor scales it by 10: after eight empty months and one month
    with 9 articles the Z-score is 8/3, it is multiplied by 20 and by 0.2,
    and its term 32/3 is above 30 times 0.2. *)
Lemma C5_counterexample :
  nth 8 (Monthly.z_scores (of_counts spike_counts)) NaN = Fin (8 / 3) /\
  nth 8 (Monthly.z_term (of_counts spike_counts)) NaN = Fin (8 / 3 * 20 * 0.2) /\
  30 * 0.2 < Rabs (8 / 3 * 20 * 0.2).
Proof.
  assert (Hz : nth 8 (Monthly.z_scores (of_counts spike_counts)) NaN = Fin (8 / 3)).
  { unfold Monthly.z_scores. rewrite mean_spike, std_spike.
    unfold spike_counts. feval. fin_eq. }
  repeat split.
  - exact Hz.
  - unfold Monthly.z_term.
    rewrite nth_map_NaN
      by (rewrite length_monthly_z_scores, length_of_counts; cbn; lia).
    rewrite Hz. feval. fin_eq.
  - rewrite Rabs_pos_eq; lra.
Qed.

(** ** C3: the Z-score and its epsilon *)

Lemma eps_pos : 0 < Weekly.eps.
Proof.
  unfold Weekly.eps. apply Rdiv_lt_0_compat; [lra |]. apply pow_lt. lra.
Qed.

Lemma weekly_z_cell (xs : list R) (t : nat) :
  (2 <= length xs)%nat -> (t < length xs)%nat ->
  nth t (Weekly.z_scores (map Fin xs)) NaN
  = Fin ((nth t xs 0 - Rsum xs / INR (length xs))
         / (sqrt (sample_var xs) + Weekly.eps)).
Proof.
  intros Hn Ht. unfold Weekly.z_scores.
  assert (Ht' : (t < length (map Fin xs))%nat) by (now rewrite length_map).
  assert (Hne : xs <> []) by (destruct xs; [cbn in Hn; lia | congruence]).
  rewrite nth_zip_with;
    [| rewrite length_bcast; symmetry; apply length_zip_with, length_bcast
     | rewrite length_zip_with; [assumption | apply length_bcast]].
  rewrite nth_zip_with by (apply length_bcast || assumption).
  rewrite !nth_bcast by assumption.
  rewrite mean_Fin, std_Fin, nth_Fin by assumption.
  pose proof (sqrt_pos (sample_var xs)). pose proof eps_pos.
  cbn. rewrite (sign_of_pos (sqrt (sample_var xs) + Weekly.eps)) by lra.
  reflexivity.
Qed.

Lemma Rsum_constant (x : R) (xs : list R) :
  (forall y, In y xs -> y = x) -> Rsum xs = INR (length xs) * x.
Proof.
  induction xs as [| y xs IH]; intros H.
  - unfold Rsum. cbn. lra.
  - rewrite Rsum_cons, IH by (intros z Hz; apply H; now right).
    rewrite (H y) by now left.
    cbn [length]. rewrite S_INR. lra.
Qed.

(** C3, as amended.  In the weekly script, for every category column with
    at least two buckets and every row, the Z-score is the count minus the
    mean of the whole column, divided by the sample standard deviation of
    the whole column (a number that is at least 0) plus the strictly
    positive epsilon 1e-9; it is therefore a finite number, and it is 0 when
    all the counts of the column are equal. *)
Theorem C3_weekly_z_score_finite (cs : list Z) (t : nat) :
  (2 <= length cs)%nat -> (t < length cs)%nat ->
  mean (of_counts cs) = Fin (Rsum (reals cs) / INR (length cs))
  /\ std (of_counts cs) = Fin (sqrt (sample_var (reals cs)))
  /\ 0 <= sqrt (sample_var (reals cs))
  /\ 0 < Weekly.eps
  /\ nth t (Weekly.z_scores (of_counts cs)) NaN
     = Fin ((count_at cs t - Rsum (reals cs) / INR (length cs))
            / (sqrt (sample_var (reals cs)) + Weekly.eps))
  /\ ((forall c, In c cs -> c = nth t cs 0%Z) ->
      nth t (Weekly.z_scores (of_counts cs)) NaN = Fin 0).
Proof.
  intros Hn Ht. rewrite of_counts_reals.
  assert (Hn' : (2 <= length (reals cs))%nat) by (now rewrite length_reals).
  assert (Ht' : (t < length (reals cs))%nat) by (now rewrite length_reals).
  assert (Hne : reals cs <> [])
    by (destruct cs; [cbn in Hn; lia | discriminate]).
  assert (Hcell := weekly_z_cell (reals cs) t Hn' Ht').
  rewrite nth_reals, length_reals in Hcell.
  repeat split.
  - rewrite mean_Fin by assumption. now rewrite length_reals.
  - now apply std_Fin.
  - apply sqrt_pos.
  - exact eps_pos.
  - exact Hcell.
  - intros Hconst. rewrite Hcell. f_equal.
    assert (Hs : Rsum (reals cs) = INR (length (reals cs)) * count_at cs t).
    { apply Rsum_constant. intros y Hy. unfold reals in Hy.
      apply in_map_iff in Hy as (c & <- & Hc). unfold count_at.
      now rewrite (Hconst c Hc). }
    rewrite Hs, length_reals.
    assert (0 < INR (length cs)) by (apply lt_0_INR; lia).
    pose proof (sqrt_pos (sample_var (reals cs))). pose proof eps_pos.
    field. split; lra.
Qed.

Lemma C3_weekly_z_score_witness :
  nth 1 (Weekly.z_scores (of_counts [5; 5]%Z)) NaN = Fin 0.
Proof.
  destruct (C3_weekly_z_score_finite [5; 5]%Z 1) as (_ & _ & _ & _ & _ & H).
  - cbn; lia.
  - cbn; lia.
  - apply H. intros c [<- | [<- | []]]; reflexivity.
Defined.

(** C3, as stated, fails.  The monthly script divides by the standard
    deviation with no epsilon: on the zero-variance column 5, 5 the
    deviation is 0 and both Z-scores are NaN.  In the weekly script a
    column with a single bucket has no sample standard deviation, and its
    Z-score is NaN as well. *)
Lemma C3_counterexample :
  std (of_counts [5; 5]%Z) = Fin 0 /\
  Monthly.z_scores (of_counts [5; 5]%Z) = [NaN; NaN] /\
  std (of_counts [5]%Z) = NaN /\
  Weekly.z_scores (of_counts [5]%Z) = [NaN].
Proof.
  assert (Hs : std (of_counts [5; 5]%Z) = Fin 0).
  { rewrite of_counts_Fin, std_Fin by (cbn; lia).
    f_equal. rewrite <- sqrt_0. f_equal.
    unfold sample_var, sqdev, Rsum. cbn. lra. }
  assert (Hm : mean (of_counts [5; 5]%Z) = Fin 5)
    by (unfold mean; feval; fin_eq).
  split; [exact Hs |].
  split; [unfold Monthly.z_scores; rewrite Hs, Hm; feval; reflexivity |].
  split; [reflexivity |].
  feval. reflexivity.
Qed.

(** ** C6: the first bucket *)

(** C6, as amended.  For the earliest bucket of every non-empty series of
    non-negative counts, in both scripts: the growth is undefined (NaN) and
    is replaced by 0, so its term in the composite is exactly 0; the moving
    average of the single available period is the count itself, and the
    deviation term of the composite is exactly 0.  The deviation itself is
    0 in the weekly script; in the monthly script it is 0 when the first
    count is positive, and it is NaN (0 divided by 0), replaced by 0 in the
    composite, when the first count is 0. *)
Theorem C6_first_bucket_neutral (c0 : Z) (cs : list Z) :
  (0 <= c0)%Z ->
  nth 0 (Weekly.wow_growth (of_counts (c0 :: cs))) NaN = NaN
  /\ nth 0 (Weekly.growth_term (of_counts (c0 :: cs))) NaN = Fin 0
  /\ nth 0 (Weekly.ma4 (of_counts (c0 :: cs))) NaN = Fin (IZR c0)
  /\ nth 0 (Weekly.ma_deviation (of_counts (c0 :: cs))) NaN = Fin 0
  /\ nth 0 (Weekly.deviation_term (of_counts (c0 :: cs))) NaN = Fin 0
  /\ nth 0 (Monthly.mom_growth (of_counts (c0 :: cs))) NaN = NaN
  /\ nth 0 (Monthly.growth_term (of_counts (c0 :: cs))) NaN = Fin 0
  /\ nth 0 (Monthly.ma3 (of_counts (c0 :: cs))) NaN = Fin (IZR c0)
  /\ ((0 < c0)%Z ->
      nth 0 (Monthly.ma_deviation (of_counts (c0 :: cs))) NaN = Fin 0)
  /\ (c0 = 0%Z ->
      nth 0 (Monthly.ma_deviation (of_counts (c0 :: cs))) NaN = NaN)
  /\ nth 0 (Monthly.deviation_term (of_counts (c0 :: cs))) NaN = Fin 0.
Proof.
  intros H0. apply IZR_le in H0.
  repeat apply conj.
  - reflexivity.
  - feval. fin_eq.
  - feval. fin_eq.
  - feval. fin_eq.
  - feval. fin_eq.
  - reflexivity.
  - feval. fin_eq.
  - feval. fin_eq.
  - intros Hpos. apply IZR_lt in Hpos. feval. fin_eq.
  - intros ->. feval. reflexivity.
  - destruct H0 as [Hpos | Hzero].
    + feval. fin_eq.
    + feval. fin_eq.
Qed.

Lemma C6_first_bucket_witness :
  nth 0 (Weekly.growth_term (of_counts [7; 2]%Z)) NaN = Fin 0
  /\ nth 0 (Weekly.deviation_term (of_counts [7; 2]%Z)) NaN = Fin 0
  /\ nth 0 (Monthly.growth_term (of_counts [7; 2]%Z)) NaN = Fin 0
  /\ nth 0 (Monthly.ma_deviation (of_counts [7; 2]%Z)) NaN = Fin 0
  /\ nth 0 (Monthly.deviation_term (of_counts [7; 2]%Z)) NaN = Fin 0.
Proof.
  destruct (C6_first_bucket_neutral 7 [2]%Z ltac:(lia))
    as (_ & H1 & _ & _ & H2 & _ & H3 & _ & H4 & _ & H5).
  exact (conj H1 (conj H2 (conj H3 (conj (H4 ltac:(lia)) H5)))).
Defined.

(** C6, as stated, fails on its last clause in the monthly script: with a
    first count of 0 (and 5 articles the month after) the one-period average
    is 0, the deviation is 0 divided by 0, that is NaN and not 0; only the
    [fillna(0)] of the composite makes its term 0. *)
Lemma C6_counterexample :
  nth 0 (Monthly.ma3 (of_counts [0; 5]%Z)) NaN = Fin 0
  /\ nth 0 (Monthly.ma_deviation (of_counts [0; 5]%Z)) NaN = NaN
  /\ nth 0 (Monthly.ma_deviation (of_counts [0; 5]%Z)) NaN <> Fin 0
  /\ nth 0 (Monthly.deviation_term (of_counts [0; 5]%Z)) NaN = Fin 0.
Proof.
  assert (Hd : nth 0 (Monthly.ma_deviation (of_counts [0; 5]%Z)) NaN = NaN)
    by (feval; reflexivity).
  split; [feval; fin_eq |]. split; [exact Hd |].
  split; [rewrite Hd; discriminate |].
  feval. fin_eq.
Qed.

(** ** Labels: [unique], [sorted] and dict lookup *)

Section Labels.

Context {A : Type} (eqb : A -> A -> bool).
Hypothesis eqb_spec : forall x y, eqb x y = true <-> x = y.

Lemma In_unique_by (x : A) (l : list A) : In x (unique_by eqb l) <-> In x l.
Proof.
  induction l as [| y l IH]; cbn; [tauto |].
  rewrite filter_In, IH. split.
  - intros [-> | [H _]]; auto.
  - intros [-> | H]; [now left |].
    destruct (eqb y x) eqn:E.
    + left. now apply eqb_spec.
    + right. split; [assumption | reflexivity].
Qed.

Lemma In_insert_by (leb : A -> A -> bool) (x y : A) (l : list A) :
  In x (insert_by leb y l) <-> x = y \/ In x l.
Proof.
  induction l as [| z l IH]; cbn.
  - intuition congruence.
  - destruct (leb y z); cbn; [intuition congruence |].
    rewrite IH. intuition congruence.
Qed.

Lemma In_sorted_by (leb : A -> A -> bool) (x : A) (l : list A) :
  In x (sorted_by leb l) <-> In x l.
Proof.
  unfold sorted_by. induction l as [| y l IH]; cbn; [tauto |].
  rewrite In_insert_by, IH. intuition congruence.
Qed.

(** A dict built over a list of keys returns the value of a key it has. *)
Lemma lookup_map_key {B} (f : A -> B) (k : A) (keys : list A) :
  In k keys -> lookup eqb k (map (fun k' => (k', f k')) keys) = Some (f k).
Proof.
  induction keys as [| k' keys IH]; cbn; [tauto |].
  intros Hin. destruct (eqb k k') eqn:E.
  - apply eqb_spec in E. now subst.
  - destruct Hin as [-> | Hin]; [| now apply IH].
    assert (eqb k k = true) by now apply eqb_spec. congruence.
Qed.

(** ... and raises on a key it does not have. *)
Lemma lookup_map_absent {B} (f : A -> B) (k : A) (keys : list A) :
  ~ In k keys -> lookup eqb k (map (fun k' => (k', f k')) keys) = None.
Proof.
  induction keys as [| k' keys IH]; cbn; [reflexivity |].
  intros Hin. destruct (eqb k k') eqn:E.
  - apply eqb_spec in E. subst. tauto.
  - apply IH. tauto.
Qed.

End Labels.

Lemma In_months (dfc : list Monthly.article) (m : string) :
  In m (Monthly.months dfc) <-> In m (map Monthly.ym dfc).
Proof.
  unfold Monthly.months, sorted, unique.
  rewrite In_sorted_by.
  apply (In_unique_by String.eqb String.eqb_eq).
Qed.

Lemma In_categories (dfc : list Monthly.article) (c : string) :
  In c (Monthly.categories dfc) <-> In c (map Monthly.category dfc).
Proof.
  unfold Monthly.categories, sorted, unique.
  rewrite In_sorted_by.
  apply (In_unique_by String.eqb String.eqb_eq).
Qed.

Lemma monthly_counts_get (dfc : list Monthly.article) (month cat : string) :
  In month (Monthly.months dfc) -> In cat (Monthly.categories dfc) ->
  Monthly.counts_get dfc month cat = Some (Monthly.cat_count dfc month cat).
Proof.
  intros Hm Hc. unfold Monthly.counts_get, Monthly.monthly_counts.
  rewrite (lookup_map_key String.eqb String.eqb_eq
             (fun month => map (fun cat => (cat, Monthly.cat_count dfc month cat))
                               (Monthly.categories dfc))) by assumption.
  now rewrite (lookup_map_key String.eqb String.eqb_eq
                 (fun cat => Monthly.cat_count dfc month cat)).
Qed.

Lemma cat_count_zero (dfc : list Monthly.article) (month cat : string) :
  (forall r, In r dfc -> ~ (Monthly.ym r = month /\ Monthly.category r = cat)) ->
  Monthly.cat_count dfc month cat = 0%Z.
Proof.
  intros Hnone. unfold Monthly.cat_count.
  replace (filter _ (filter _ dfc)) with (@nil Monthly.article); [reflexivity |].
  symmetry. induction dfc as [| r dfc IH]; [reflexivity |].
  cbn. destruct (String.eqb_spec (Monthly.ym r) month) as [Hy | Hy]; cbn.
  - destruct (String.eqb_spec (Monthly.category r) cat) as [Hk | Hk].
    + exfalso. apply (Hnone r); [now left | now split].
    + apply IH. intros r' Hr'. apply Hnone. now right.
  - apply IH. intros r' Hr'. apply Hnone. now right.
Qed.

(** ** The weekly count table *)

Lemma key_eqb_eq (a b : Z * string) : Weekly.key_eqb a b = true <-> a = b.
Proof.
  destruct a as [w c], b as [w' c']. unfold Weekly.key_eqb. cbn.
  rewrite andb_true_iff, Z.eqb_eq, String.eqb_eq.
  split; [intros [-> ->]; reflexivity | intros [= -> ->]; auto].
Qed.

Lemma lookup_app {K V} (eqb : K -> K -> bool) (k : K) (l1 l2 : list (K * V)) :
  lookup eqb k (l1 ++ l2)
  = match lookup eqb k l1 with
    | Some v => Some v
    | None => lookup eqb k l2
    end.
Proof.
  induction l1 as [| [k' v] l1 IH]; cbn; [reflexivity |].
  destruct (eqb k k'); [reflexivity | apply IH].
Qed.

Lemma lookup_flat_map_none {A K V} (eqb : K -> K -> bool) (k : K)
      (F : A -> list (K * V)) (keys : list A) :
  (forall a, In a keys -> lookup eqb k (F a) = None) ->
  lookup eqb k (flat_map F keys) = None.
Proof.
  induction keys as [| a keys IH]; cbn; [reflexivity |].
  intros H. rewrite lookup_app, (H a) by now left.
  apply IH. intros a' Ha'. apply H. now right.
Qed.

(** In a dict laid out group by group, a key that only the group of [a] can
    hold is found in that group. *)
Lemma lookup_flat_map_group {A K V} (eqb : K -> K -> bool) (k : K)
      (F : A -> list (K * V)) (keys : list A) (a : A) :
  (forall x y : A, {x = y} + {x <> y}) ->
  (forall a', a' <> a -> lookup eqb k (F a') = None) ->
  In a keys ->
  lookup eqb k (flat_map F keys) = lookup eqb k (F a).
Proof.
  intros dec Hother. induction keys as [| a' keys IH]; cbn; [tauto |].
  intros Hin. rewrite lookup_app.
  destruct (dec a' a) as [-> | Hne].
  - destruct (lookup eqb k (F a)) eqn:E; [reflexivity |].
    apply lookup_flat_map_none. intros x _.
    destruct (dec x a) as [-> | Hx]; [exact E | now apply Hother].
  - rewrite (Hother a' Hne). apply IH.
    destruct Hin as [-> | Hin]; [congruence | assumption].
Qed.

Lemma key_eqb_refl (k : Z * string) : Weekly.key_eqb k k = true.
Proof. now apply key_eqb_eq. Qed.

Lemma key_eqb_diff (k k' : Z * string) : k <> k' -> Weekly.key_eqb k k' = false.
Proof.
  intros Hne. destruct (Weekly.key_eqb k k') eqn:E; [| reflexivity].
  apply key_eqb_eq in E. contradiction.
Qed.

Lemma group_size_lookup (df : list Weekly.news) (w : Z) (c : string) :
  In w (Weekly.weeks df) -> In c (Weekly.categories df) ->
  lookup Weekly.key_eqb (w, c) (Weekly.group_size df)
  = if (0 <? weekly_size df w c)%nat
    then Some (Z.of_nat (weekly_size df w c))
    else None.
Proof.
  intros Hw Hc. unfold Weekly.group_size.
  rewrite (lookup_flat_map_group Weekly.key_eqb (w, c) _ (Weekly.weeks df) w);
    [| exact Z.eq_dec | | exact Hw].
  - rewrite (lookup_flat_map_group Weekly.key_eqb (w, c) _
               (Weekly.categories df) c); [| exact string_dec | | exact Hc].
    + fold (weekly_size df w c).
      destruct (0 <? weekly_size df w c)%nat; [| reflexivity].
      cbn [lookup]. now rewrite key_eqb_refl.
    + intros c' Hc'.
      destruct (0 <? length (filter (Weekly.key_eqb (w, c')) (Weekly.keys_of df)))%nat;
        [| reflexivity].
      cbn [lookup]. rewrite key_eqb_diff; [reflexivity | congruence].
  - intros w' Hw'. apply lookup_flat_map_none. intros c' _.
    destruct (0 <? length (filter (Weekly.key_eqb (w', c')) (Weekly.keys_of df)))%nat;
      [| reflexivity].
    cbn [lookup]. rewrite key_eqb_diff; [reflexivity | congruence].
Qed.

Lemma find_week {B} (h : Z -> B) (w : Z) (ws : list Z) :
  In w ws ->
  find (fun p => (fst p =? w)%Z) (combine ws (map h ws)) = Some (w, h w).
Proof.
  induction ws as [| w' ws IH]; cbn; [tauto |].
  intros Hin. destruct (Z.eqb_spec w' w) as [-> | Hne]; [reflexivity |].
  apply IH. destruct Hin as [-> | Hin]; [congruence | assumption].
Qed.

Lemma In_weeks (df : list Weekly.news) (w : Z) :
  In w (Weekly.weeks df) <-> In w (map fst (Weekly.keys_of df)).
Proof.
  unfold Weekly.weeks. rewrite In_sorted_by.
  apply (In_unique_by Z.eqb Z.eqb_eq).
Qed.

Lemma In_weekly_categories (df : list Weekly.news) (c : string) :
  In c (Weekly.categories df) <-> In c (map snd (Weekly.keys_of df)).
Proof.
  unfold Weekly.categories, sorted, unique. rewrite In_sorted_by.
  apply (In_unique_by String.eqb String.eqb_eq).
Qed.

(** Every cell of the weekly table over an observed week and an observed
    category holds the number of rows of that pair. *)
Lemma weekly_counts_get (df : list Weekly.news) (w : Z) (c : string) :
  In w (Weekly.weeks df) -> In c (Weekly.categories df) ->
  Weekly.counts_get df w c = Some (Fin (INR (weekly_size df w c))).
Proof.
  intros Hw Hc. unfold Weekly.counts_get, Weekly.weekly_counts, Weekly.unstack,
    col_map.
  rewrite map_map. cbn [fst snd].
  rewrite (lookup_map_key String.eqb String.eqb_eq
             (fun c => map fillna0
                (map (fun w => match lookup Weekly.key_eqb (w, c) (Weekly.group_size df) with
                               | Some n => Fin (IZR n)
                               | None => NaN
                               end) (Weekly.weeks df)))) by assumption.
  rewrite map_map, (find_week _ w) by assumption. cbn [snd].
  rewrite group_size_lookup by assumption.
  destruct (Nat.ltb_spec 0 (weekly_size df w c)) as [Hpos | Hzero]; cbn.
  - now rewrite INR_IZR_INZ.
  - replace (weekly_size df w c) with 0%nat by lia. reflexivity.
Qed.

(** ** C8: zero fill *)

Lemma cat_count_rows (df : list Monthly.article) (month cat : string) :
  cat <> Monthly.unclassified ->
  Monthly.cat_count (Monthly.df_classified df) month cat
  = Z.of_nat (length (monthly_rows df month cat)).
Proof.
  intros Hcat. unfold Monthly.cat_count, Monthly.df_classified, monthly_rows.
  f_equal. induction df as [| r df IH]; [reflexivity |].
  cbn. destruct (String.eqb_spec (Monthly.category r) Monthly.unclassified)
    as [Hu | Hu]; cbn.
  - destruct (String.eqb_spec (Monthly.category r) cat) as [Hc | Hc];
      [congruence |].
    rewrite andb_false_r. exact IH.
  - destruct (Monthly.ym r =? month)%string; cbn; [| exact IH].
    destruct (Monthly.category r =? cat)%string; cbn; now rewrite IH.
Qed.

Lemma In_df_classified (df : list Monthly.article) (r : Monthly.article) :
  In r (Monthly.df_classified df)
  <-> In r df /\ Monthly.category r <> Monthly.unclassified.
Proof.
  unfold Monthly.df_classified. rewrite filter_In.
  destruct (String.eqb_spec (Monthly.category r) Monthly.unclassified);
    cbn; intuition congruence.
Qed.

Lemma keys_of_In (df : list Weekly.news) (r : Weekly.news) (k : Z * string) :
  In r df -> Weekly.group_key r = Some k -> In k (Weekly.keys_of df).
Proof.
  induction df as [| r' df IH]; cbn; [tauto |].
  intros [-> | Hin] Hk.
  - rewrite Hk. now left.
  - destruct (Weekly.group_key r'); [right |]; now apply IH.
Qed.

Lemma weekly_size_rows (df : list Weekly.news) (w : Z) (c : string) :
  weekly_size df w c = length (weekly_rows df w c).
Proof.
  unfold weekly_size, weekly_rows. induction df as [| r df IH]; [reflexivity |].
  cbn. destruct (Weekly.group_key r) as [k |]; cbn; [| exact IH].
  destruct (Weekly.key_eqb (w, c) k); cbn; now rewrite IH.
Qed.

(** C8, as amended.  In the monthly table, built from the rows of the sheet
    that are not labelled as unclassified, every (month, category) pair
    whose month is the month of some such row and whose category is the
    label of some such row has a defined count, the number of rows of the
    sheet of that pair, which is 0 when no row maps to it.  In the weekly
    table, built from the rows that have both a date and a category, every
    (week, category) pair whose week is the bucket of some such row and
    whose category is the label of some such row has a defined count, the
    number of rows of that pair, 0 when no row maps to it. *)
Theorem C8_zero_fill_observed
        (sheet : list Monthly.article) (month cat : string)
        (df : list Weekly.news) (w : Z) (c : string) :
  (exists r, In r sheet /\ Monthly.ym r = month
             /\ Monthly.category r <> Monthly.unclassified) ->
  (exists r, In r sheet /\ Monthly.category r = cat) ->
  cat <> Monthly.unclassified ->
  (exists r c', In r df /\ Weekly.group_key r = Some (w, c')) ->
  (exists r w', In r df /\ Weekly.group_key r = Some (w', c)) ->
  (Monthly.counts_get (Monthly.df_classified sheet) month cat
     = Some (Z.of_nat (length (monthly_rows sheet month cat)))
   /\ (monthly_rows sheet month cat = [] ->
       Monthly.counts_get (Monthly.df_classified sheet) month cat = Some 0%Z))
  /\ (Weekly.counts_get df w c = Some (Fin (INR (length (weekly_rows df w c))))
      /\ (weekly_rows df w c = [] ->
          Weekly.counts_get df w c = Some (Fin 0))).
Proof.
  intros (r1 & Hr1 & Hym & Hcl) (r2 & Hr2 & Hcat) Hne
         (n1 & c' & Hn1 & Hk1) (n2 & w' & Hn2 & Hk2).
  assert (Hm : In month (Monthly.months (Monthly.df_classified sheet))).
  { apply In_months. rewrite <- Hym. apply in_map.
    apply In_df_classified. now split. }
  assert (Hc : In cat (Monthly.categories (Monthly.df_classified sheet))).
  { apply In_categories. rewrite <- Hcat. apply in_map.
    apply In_df_classified. split; [assumption | congruence]. }
  assert (Hw : In w (Weekly.weeks df)).
  { apply In_weeks. apply (in_map fst _ (w, c')).
    now apply (keys_of_In df n1). }
  assert (Hk : In c (Weekly.categories df)).
  { apply In_weekly_categories. apply (in_map snd _ (w', c)).
    now apply (keys_of_In df n2). }
  pose proof (monthly_counts_get _ month cat Hm Hc) as Hget.
  rewrite cat_count_rows in Hget by assumption.
  pose proof (weekly_counts_get df w c Hw Hk) as Hwget.
  rewrite weekly_size_rows in Hwget.
  split; split.
  - exact Hget.
  - intros Hnone. now rewrite Hget, Hnone.
  - exact Hwget.
  - intros Hz. now rewrite Hwget, Hz.
Qed.

Lemma C8_zero_fill_witness :
  Monthly.counts_get (Monthly.df_classified two_articles) "2025-01" "B"
    = Some 0%Z
  /\ Weekly.counts_get two_news 5 "B" = Some (Fin 0).
Proof.
  destruct (C8_zero_fill_observed two_articles "2025-01" "B" two_news 5 "B")
    as [[_ Hm] [_ Hw]].
  - eexists. split; [left; reflexivity |]. split; [reflexivity | discriminate].
  - eexists. split; [right; left; reflexivity | reflexivity].
  - discriminate.
  - eexists. exists "A"%string. split; [left; reflexivity | reflexivity].
  - eexists. exists 12%Z. split; [right; left; reflexivity | reflexivity].
  - split; [apply Hm | apply Hw]; reflexivity.
Defined.

(** C8, as stated, fails in two ways.  A bucket of the range that holds no
    event has no row: with articles in January and in March only, February
    lies between the first and the last observed month and category A is
    observed, but the lookup of (February, A) raises.  And a row labelled
    as unclassified is dropped before the table is built: with an article
    of category A in January and an unclassified one in February, both
    months and both labels are observed in the input, but February has no
    row and the unclassified label has no column. *)
Lemma C8_counterexample :
  Monthly.months (Monthly.df_classified gap_articles)
    = ["2025-01"; "2025-03"]%string
  /\ (("2025-01" <=? "2025-02") && ("2025-02" <=? "2025-03"))%string = true
  /\ In "A"%string (map Monthly.category gap_articles)
  /\ Monthly.counts_get (Monthly.df_classified gap_articles) "2025-02" "A"
     = None
  /\ In "2025-02"%string (map Monthly.ym half_classified)
  /\ In "A"%string (map Monthly.category half_classified)
  /\ Monthly.counts_get (Monthly.df_classified half_classified) "2025-02" "A"
     = None
  /\ In Monthly.unclassified (map Monthly.category half_classified)
  /\ Monthly.counts_get (Monthly.df_classified half_classified)
       "2025-01" Monthly.unclassified
     = None.
Proof.
  split; [reflexivity |]. split; [reflexivity |].
  split; [cbn; tauto |]. split; [reflexivity |].
  split; [cbn; tauto |]. split; [cbn; tauto |].
  split; [reflexivity |]. split; [cbn; tauto | reflexivity].
Qed.

(** ** C10: the month-over-month text of the report *)

Lemma round_half_even_0 : Py.round_half_even 0 = 0%Z.
Proof.
  unfold Py.round_half_even.
  assert (H0 : Int_part 0 = 0%Z) by (symmetry; apply Int_part_spec; lra).
  rewrite H0.
  destruct (total_order_T (0 - 0) (1 / 2)) as [[Hlt | Heq] | Hgt];
    [reflexivity | lra | lra].
Qed.

Lemma format_zero : Py.format_plus_1f (Fin 0) = "+0.0"%string.
Proof.
  unfold Py.format_plus_1f.
  rewrite Rabs_R0, Rmult_0_l, round_half_even_0, (sign_of_zero 0) by reflexivity.
  reflexivity.
Qed.

(** A formatted number starts with its sign. *)
Lemma format_starts_with_sign (a : float) :
  exists rest, Py.format_plus_1f a = String "+" rest
               \/ Py.format_plus_1f a = String "-" rest.
Proof.
  destruct a as [x | | |]; cbn.
  - destruct (sign_of x); cbn; eexists; (left; reflexivity) || (right; reflexivity).
  - eexists. left. reflexivity.
  - eexists. right. reflexivity.
  - eexists. left. reflexivity.
Qed.

Lemma cat_count_nonneg (dfc : list Monthly.article) (month cat : string) :
  (0 <= Monthly.cat_count dfc month cat)%Z.
Proof. unfold Monthly.cat_count. lia. Qed.

Lemma mom_str_first (dfc : list Monthly.article) (month cat : string) :
  index_of month (Monthly.months dfc) = 0%nat ->
  Monthly.mom_str dfc month cat = "N/A"%string.
Proof. intros H. unfold Monthly.mom_str. now rewrite H. Qed.

Lemma mom_str_later (dfc : list Monthly.article) (month cat : string) :
  (0 < index_of month (Monthly.months dfc))%nat ->
  Monthly.mom_str dfc month cat <> "N/A"%string.
Proof.
  intros H. unfold Monthly.mom_str.
  destruct (Nat.ltb_spec 0 (index_of month (Monthly.months dfc))) as [_ | Hle];
    [| lia].
  match goal with
  | |- (Py.format_plus_1f ?v ++ _)%string <> _ =>
      destruct (format_starts_with_sign v) as [rest [-> | ->]]
  end; cbn; discriminate.
Qed.

Lemma mom_str_prev_zero (dfc : list Monthly.article) (month cat : string) :
  (0 < index_of month (Monthly.months dfc))%nat ->
  Monthly.cat_count dfc
    (nth (index_of month (Monthly.months dfc) - 1) (Monthly.months dfc) ""%string)
    cat = 0%Z ->
  Monthly.mom_str dfc month cat = "+0.0%"%string.
Proof.
  intros H Hprev. unfold Monthly.mom_str.
  destruct (Nat.ltb_spec 0 (index_of month (Monthly.months dfc))) as [_ | Hle];
    [| lia].
  rewrite Hprev. cbn [Z.ltb Z.compare]. now rewrite format_zero.
Qed.

(** A row of the report carries the text computed for its month and
    category. *)
Lemma viral_results_mom_str (kind : sort_kind) (dfc : list Monthly.article)
      (r : Monthly.viral_result) :
  In r (Monthly.viral_results kind dfc) ->
  In (Monthly.r_ym r) (Monthly.months dfc)
  /\ Monthly.r_mom_str r
     = Monthly.mom_str dfc (Monthly.r_ym r) (Monthly.r_category r).
Proof.
  unfold Monthly.viral_results. intros Hr.
  apply in_flat_map in Hr as (month & Hmonth & Hr).
  unfold Monthly.month_results in Hr.
  apply in_map_iff in Hr as (e & <- & _). cbn. now split.
Qed.

(** C10.  In the monthly top-3 table, a row of the first month reads N/A; a
    row of any later month never reads N/A, and when the category's count of
    the previous month is 0 it reads +0.0 percent, whatever the count of the
    current month. *)
Theorem C10_change_text (kind : sort_kind) (dfc : list Monthly.article)
        (r : Monthly.viral_result) :
  In r (Monthly.viral_results kind dfc) ->
  (index_of (Monthly.r_ym r) (Monthly.months dfc) = 0%nat ->
   Monthly.r_mom_str r = "N/A"%string)
  /\ ((0 < index_of (Monthly.r_ym r) (Monthly.months dfc))%nat ->
      Monthly.r_mom_str r <> "N/A"%string
      /\ (Monthly.cat_count dfc
            (nth (index_of (Monthly.r_ym r) (Monthly.months dfc) - 1)
                 (Monthly.months dfc) ""%string)
            (Monthly.r_category r) = 0%Z ->
          Monthly.r_mom_str r = "+0.0%"%string)).
Proof.
  intros Hr. destruct (viral_results_mom_str kind dfc r Hr) as [_ ->].
  split; [apply mom_str_first |].
  intros Hlater. split; [now apply mom_str_later | now apply mom_str_prev_zero].
Qed.

(** ** Order of the entries of a list *)

Section Before.

Context {A : Type}.

Lemma before_In_l (a b : A) (l : list A) : before a b l -> In a l.
Proof. induction 1; [now left | now right]. Qed.

Lemma before_In_r (a b : A) (l : list A) : before a b l -> In b l.
Proof. induction 1; now right. Qed.

Lemma before_app_l (a b : A) (l1 l2 : list A) :
  before a b l1 -> before a b (l1 ++ l2).
Proof.
  induction 1 as [l Hb | c l _ IH]; cbn.
  - apply before_here. apply in_or_app. now left.
  - now apply before_later.
Qed.

Lemma before_app_r (a b : A) (l1 l2 : list A) :
  before a b l2 -> before a b (l1 ++ l2).
Proof.
  intros H. induction l1 as [| c l1 IH]; cbn; [assumption |].
  now apply before_later.
Qed.

Lemma before_filter (p : A -> bool) (a b : A) (l : list A) :
  before a b l -> p a = true -> p b = true -> before a b (filter p l).
Proof.
  intros H Ha Hb. induction H as [l Hin | c l _ IH]; cbn.
  - rewrite Ha. apply before_here. apply filter_In. now split.
  - destruct (p c); [now apply before_later | assumption].
Qed.

Lemma before_firstn (n : nat) (a b : A) (l : list A) :
  NoDup l -> before a b l -> In b (firstn n l) -> before a b (firstn n l).
Proof.
  intros Hnd H. revert n. induction H as [l Hin | c l Hbef IH]; intros n Hb.
  - destruct n as [| n]; cbn in *; [tauto |].
    apply before_here. destruct Hb as [-> | Hb]; [| assumption].
    apply NoDup_cons_iff in Hnd. tauto.
  - destruct n as [| n]; cbn in *; [tauto |].
    apply NoDup_cons_iff in Hnd as [Hc Hnd].
    apply before_later. apply IH; [assumption |].
    destruct Hb as [-> | Hb]; [| assumption].
    apply before_In_r in Hbef. tauto.
Qed.

Lemma NoDup_firstn (n : nat) (l : list A) : NoDup l -> NoDup (firstn n l).
Proof.
  intros H. rewrite <- (firstn_skipn n l) in H. now apply NoDup_app_remove_r in H.
Qed.

(** In a numbered list without repetition, an entry that precedes another
    one has the smaller number. *)
Lemma before_numbered (start : nat) (a b : A) (l : list A) (k2 : nat) :
  NoDup l -> before a b l ->
  In (k2, b) (combine (seq start (length l)) l) ->
  exists k1, In (k1, a) (combine (seq start (length l)) l) /\ (k1 < k2)%nat.
Proof.
  intros Hnd H. revert start. induction H as [l Hin | c l Hbef IH]; intros start Hk.
  - cbn in Hk. apply NoDup_cons_iff in Hnd as [Ha _].
    destruct Hk as [[= <- <-] | Hk]; [tauto |].
    exists start. split; [now left |].
    apply in_combine_l, in_seq in Hk. lia.
  - cbn in Hk. apply NoDup_cons_iff in Hnd as [Hc Hnd].
    destruct Hk as [[= <- <-] | Hk].
    + apply before_In_r in Hbef. tauto.
    + destruct (IH Hnd (S start) Hk) as (k1 & Hk1 & Hlt).
      exists k1. split; [now right | assumption].
Qed.

End Before.

Lemma before_map {A B} (f : A -> B) (a b : A) (l : list A) :
  before a b l -> before (f a) (f b) (map f l).
Proof.
  induction 1 as [l Hin | c l _ IH]; cbn.
  - apply before_here. now apply in_map.
  - now apply before_later.
Qed.

(** ** [sort_values] and the order-preserving sort *)

Lemma fgeb_refl (a : float) : isna a = false -> fgeb a a = true.
Proof.
  destruct a as [x | | |]; cbn; try reflexivity; try discriminate.
  intros _. destruct (Rle_dec x x); [reflexivity | lra].
Qed.

Lemma In_insert_desc (x y : string * float) (l : list (string * float)) :
  In y (insert_desc x l) <-> y = x \/ In y l.
Proof.
  induction l as [| z l IH]; cbn.
  - intuition congruence.
  - destruct (fgeb (snd x) (snd z)); cbn; [intuition congruence |].
    rewrite IH. intuition congruence.
Qed.

Lemma insert_desc_perm (x : string * float) (l : list (string * float)) :
  Permutation (insert_desc x l) (x :: l).
Proof.
  induction l as [| z l IH]; cbn; [reflexivity |].
  destruct (fgeb (snd x) (snd z)); [reflexivity |].
  rewrite IH. apply perm_swap.
Qed.

Lemma sort_desc_perm (l : list (string * float)) :
  Permutation (fold_right insert_desc [] l) l.
Proof.
  induction l as [| x l IH]; cbn; [reflexivity |].
  rewrite insert_desc_perm. now apply perm_skip.
Qed.

Lemma filter_split_perm {A} (p : A -> bool) (l : list A) :
  Permutation (filter (fun x => negb (p x)) l ++ filter p l) l.
Proof.
  induction l as [| x l IH]; cbn; [reflexivity |].
  destruct (p x); cbn.
  - rewrite <- Permutation_middle. now apply perm_skip.
  - now apply perm_skip.
Qed.

Lemma stable_kind_rearranges : rearranges stable_kind.
Proof. intros l. apply sort_desc_perm. Qed.

Lemma sort_values_desc_perm (kind : sort_kind) (row : list (string * float)) :
  rearranges kind -> Permutation (sort_values_desc kind row) row.
Proof.
  intros Hk. unfold sort_values_desc. rewrite (Hk _).
  apply (filter_split_perm (fun c => isna (snd c))).
Qed.

(** Inserting an entry keeps the order of the entries already there. *)
Lemma insert_desc_keeps (x a b : string * float) (l : list (string * float)) :
  before a b l -> before a b (insert_desc x l).
Proof.
  induction 1 as [l Hin | c l Hbef IH]; cbn.
  - destruct (fgeb (snd x) (snd a)).
    + now apply before_later, before_here.
    + apply before_here. apply In_insert_desc. now right.
  - destruct (fgeb (snd x) (snd c)).
    + now apply before_later, before_later.
    + now apply before_later.
Qed.

(** An inserted entry lands before every entry it is at least equal to. *)
Lemma insert_desc_first (x y : string * float) (l : list (string * float)) :
  In y l -> fgeb (snd x) (snd y) = true -> before x y (insert_desc x l).
Proof.
  induction l as [| z l IH]; cbn; [tauto |].
  intros Hin Hge. destruct (fgeb (snd x) (snd z)) eqn:E.
  - now apply before_here.
  - apply before_later. apply IH; [| assumption].
    destruct Hin as [-> | Hin]; [congruence | assumption].
Qed.

Lemma sort_desc_stable (a b : string * float) (l : list (string * float)) :
  before a b l -> fgeb (snd a) (snd b) = true ->
  before a b (fold_right insert_desc [] l).
Proof.
  intros H Hge. induction H as [l Hin | c l Hbef IH]; cbn.
  - apply insert_desc_first; [| assumption].
    now apply (Permutation_in _ (Permutation_sym (sort_desc_perm l))).
  - now apply insert_desc_keeps.
Qed.

Lemma stable_kind_keeps_ties : keeps_ties_in_place stable_kind.
Proof.
  intros l a b Hl Hbef Heq. apply sort_desc_stable; [assumption |].
  rewrite <- Heq. apply fgeb_refl.
  rewrite Forall_forall in Hl. apply (Hl a). now apply before_In_l in Hbef.
Qed.

(** With an order-preserving sort, two entries with the same score keep
    their order in the sorted row. *)
Lemma sort_values_desc_stable (kind : sort_kind) (a b : string * float)
      (row : list (string * float)) :
  keeps_ties_in_place kind ->
  before a b row -> snd a = snd b -> before a b (sort_values_desc kind row).
Proof.
  intros Hk H Heq. unfold sort_values_desc.
  destruct (isna (snd a)) eqn:Ea.
  - apply before_app_r. apply before_filter; [assumption | assumption |].
    now rewrite <- Heq.
  - apply before_app_l. apply Hk.
    + apply Forall_forall. intros c Hc. apply filter_In in Hc as [_ Hc].
      now destruct (isna (snd c)).
    + apply before_filter; [assumption | now rewrite Ea |].
      now rewrite <- Heq, Ea.
    + exact Heq.
Qed.

(** ** The label lists have no repetition *)

Lemma NoDup_unique_by {A} (eqb : A -> A -> bool) (l : list A) :
  (forall x y, eqb x y = true <-> x = y) -> NoDup (unique_by eqb l).
Proof.
  intros Hspec. induction l as [| x l IH]; cbn; constructor.
  - rewrite filter_In. intros [_ Hx].
    assert (eqb x x = true) by now apply Hspec.
    destruct (eqb x x); [discriminate | congruence].
  - now apply NoDup_filter.
Qed.

Lemma insert_by_perm {A} (leb : A -> A -> bool) (x : A) (l : list A) :
  Permutation (insert_by leb x l) (x :: l).
Proof.
  induction l as [| z l IH]; cbn; [reflexivity |].
  destruct (leb x z); [reflexivity |].
  rewrite IH. apply perm_swap.
Qed.

Lemma sorted_by_perm {A} (leb : A -> A -> bool) (l : list A) :
  Permutation (sorted_by leb l) l.
Proof.
  unfold sorted_by. induction l as [| x l IH]; cbn; [reflexivity |].
  rewrite insert_by_perm. now apply perm_skip.
Qed.

Lemma NoDup_categories (dfc : list Monthly.article) :
  NoDup (Monthly.categories dfc).
Proof.
  unfold Monthly.categories, sorted, unique.
  eapply Permutation_NoDup; [apply Permutation_sym, sorted_by_perm |].
  apply NoDup_unique_by, String.eqb_eq.
Qed.

(** ** Sorted label lists do not depend on the order of the rows *)

Lemma string_leb_iff (a b : string) :
  String.leb a b = true <-> a = b \/ String_as_OT.lt a b.
Proof.
  unfold String.leb. change (String.compare a b) with (String_as_OT.cmp a b).
  destruct (String_as_OT.cmp a b) eqn:E.
  - apply String_as_OT.cmp_eq in E. intuition.
  - apply String_as_OT.cmp_lt in E. intuition.
  - split; [discriminate |]. intros [-> | H].
    + assert (String_as_OT.cmp b b = Eq) by now apply String_as_OT.cmp_eq.
      congruence.
    + apply String_as_OT.cmp_lt in H. congruence.
Qed.

Lemma string_leb_trans (a b c : string) :
  String.leb a b = true -> String.leb b c = true -> String.leb a c = true.
Proof.
  rewrite !string_leb_iff. intros [-> | H1] [-> | H2]; auto.
  right. eapply String_as_OT.lt_trans; eassumption.
Qed.

Section SortedLists.

Context {A : Type} (leb : A -> A -> bool).
Hypothesis leb_total : forall x y, leb x y = true \/ leb y x = true.
Hypothesis leb_trans : forall x y z, leb x y = true -> leb y z = true -> leb x z = true.
Hypothesis leb_antisym : forall x y, leb x y = true -> leb y x = true -> x = y.

Let le (x y : A) : Prop := leb x y = true.

Lemma insert_by_sorted (x : A) (l : list A) :
  StronglySorted le l -> StronglySorted le (insert_by leb x l).
Proof.
  induction 1 as [| y l Hs IH Hy]; cbn.
  - constructor; constructor.
  - destruct (leb x y) eqn:E.
    + constructor; [now constructor |].
      constructor; [exact E |].
      eapply Forall_impl; [| exact Hy]. intros z Hz. now apply (leb_trans x y z).
    + constructor; [exact IH |].
      apply Forall_forall. intros z Hz. apply In_insert_by in Hz as [-> | Hz].
      * destruct (leb_total x y) as [H | H]; [congruence | exact H].
      * rewrite Forall_forall in Hy. now apply Hy.
Qed.

Lemma sorted_by_sorted (l : list A) : StronglySorted le (sorted_by leb l).
Proof.
  unfold sorted_by. induction l as [| x l IH]; cbn; [constructor |].
  now apply insert_by_sorted.
Qed.

(** Two sorted lists without repetition that hold the same values are the
    same list. *)
Lemma sorted_lists_equal (l1 l2 : list A) :
  StronglySorted le l1 -> StronglySorted le l2 ->
  NoDup l1 -> NoDup l2 ->
  (forall x, In x l1 <-> In x l2) -> l1 = l2.
Proof.
  intros H1. revert l2. induction H1 as [| a l1 Hs1 IH Ha]; intros l2 H2 N1 N2 Hin.
  - destruct l2 as [| b l2]; [reflexivity |].
    exfalso. apply (Hin b). now left.
  - destruct l2 as [| b l2]; [exfalso; apply (Hin a); now left |].
    apply StronglySorted_inv in H2 as [Hs2 Hb].
    apply NoDup_cons_iff in N1 as [Na N1]. apply NoDup_cons_iff in N2 as [Nb N2].
    rewrite Forall_forall in Ha, Hb.
    assert (Hab : a = b).
    { destruct (proj1 (Hin a) (or_introl eq_refl)) as [Hba | Hal2]; [now symmetry |].
      destruct (proj2 (Hin b) (or_introl eq_refl)) as [Hba | Hbl1]; [assumption |].
      apply leb_antisym; [now apply Ha | now apply Hb]. }
    subst b. f_equal. apply IH; try assumption.
    intros x. split; intros Hx.
    + destruct (proj1 (Hin x) (or_intror Hx)) as [<- | H]; [contradiction | exact H].
    + destruct (proj2 (Hin x) (or_intror Hx)) as [<- | H]; [contradiction | exact H].
Qed.

End SortedLists.

(** The sorted list of the distinct labels depends on which labels occur,
    not on where. *)
Lemma sorted_unique_same (l l' : list string) :
  (forall x, In x l <-> In x l') -> sorted (unique l) = sorted (unique l').
Proof.
  intros Hin. unfold sorted, unique.
  apply (sorted_lists_equal String.leb String.leb_antisym).
  - apply sorted_by_sorted; [apply String.leb_total | apply string_leb_trans].
  - apply sorted_by_sorted; [apply String.leb_total | apply string_leb_trans].
  - eapply Permutation_NoDup; [apply Permutation_sym, sorted_by_perm |].
    apply NoDup_unique_by, String.eqb_eq.
  - eapply Permutation_NoDup; [apply Permutation_sym, sorted_by_perm |].
    apply NoDup_unique_by, String.eqb_eq.
  - intros x. rewrite !In_sorted_by.
    rewrite !(In_unique_by String.eqb String.eqb_eq). apply Hin.
Qed.

Lemma filter_perm {A} (p : A -> bool) (l l' : list A) :
  Permutation l l' -> Permutation (filter p l) (filter p l').
Proof.
  induction 1 as [| x l l' _ IH | x y l | l l' l'' _ IH1 _ IH2]; cbn.
  - reflexivity.
  - destruct (p x); [now apply perm_skip | assumption].
  - destruct (p x), (p y); try reflexivity. apply perm_swap.
  - now transitivity (filter p l').
Qed.

Lemma months_perm (dfc dfc' : list Monthly.article) :
  Permutation dfc dfc' -> Monthly.months dfc' = Monthly.months dfc.
Proof.
  intros H. unfold Monthly.months. apply sorted_unique_same.
  intros x. split; apply Permutation_in, Permutation_map;
    [now apply Permutation_sym | assumption].
Qed.

Lemma categories_perm (dfc dfc' : list Monthly.article) :
  Permutation dfc dfc' -> Monthly.categories dfc' = Monthly.categories dfc.
Proof.
  intros H. unfold Monthly.categories. apply sorted_unique_same.
  intros x. split; apply Permutation_in, Permutation_map;
    [now apply Permutation_sym | assumption].
Qed.

Lemma cat_count_perm (dfc dfc' : list Monthly.article) (month cat : string) :
  Permutation dfc dfc' ->
  Monthly.cat_count dfc' month cat = Monthly.cat_count dfc month cat.
Proof.
  intros H. unfold Monthly.cat_count. f_equal.
  apply Permutation_length, filter_perm, filter_perm. now apply Permutation_sym.
Qed.

Lemma count_df_perm (dfc dfc' : list Monthly.article) :
  Permutation dfc dfc' -> Monthly.count_df dfc' = Monthly.count_df dfc.
Proof.
  intros H. unfold Monthly.count_df.
  rewrite (months_perm dfc dfc' H), (categories_perm dfc dfc' H).
  apply map_ext. intros cat. do 2 f_equal.
  apply map_ext. intros month. now apply cat_count_perm.
Qed.

Lemma mom_str_perm (dfc dfc' : list Monthly.article) (month cat : string) :
  Permutation dfc dfc' ->
  Monthly.mom_str dfc' month cat = Monthly.mom_str dfc month cat.
Proof.
  intros H. unfold Monthly.mom_str.
  rewrite (months_perm dfc dfc' H), !(cat_count_perm dfc dfc' _ _ H).
  reflexivity.
Qed.

(** The report is the same for every order of the rows of the sheet. *)
Lemma viral_results_perm (kind : sort_kind) (dfc dfc' : list Monthly.article) :
  Permutation dfc dfc' ->
  Monthly.viral_results kind dfc' = Monthly.viral_results kind dfc.
Proof.
  intros H. unfold Monthly.viral_results, Monthly.month_results,
    Monthly.viral_index_df, Monthly.mom_growth_df, Monthly.ma_deviation_df,
    Monthly.z_scores_df.
  rewrite (months_perm dfc dfc' H), (count_df_perm dfc dfc' H).
  apply flat_map_ext. intros month. apply map_ext. intros e.
  now rewrite (cat_count_perm dfc dfc' _ _ H), (mom_str_perm dfc dfc' _ _ H).
Qed.

(** ** The ranking of one month *)

Lemma In_firstn {A} (n : nat) (l : list A) (x : A) :
  In x (firstn n l) -> In x l.
Proof.
  intros H. rewrite <- (firstn_skipn n l). apply in_or_app. now left.
Qed.

Lemma viral_index_df_columns (dfc : list Monthly.article) :
  Monthly.viral_index_df dfc
  = map (fun cat =>
           (cat, Monthly.viral_index
                   (of_counts (map (fun month => Monthly.cat_count dfc month cat)
                                   (Monthly.months dfc)))))
        (Monthly.categories dfc).
Proof.
  unfold Monthly.viral_index_df, Monthly.count_df, col_map.
  now rewrite map_map.
Qed.

(** The row of scores of a month lists the categories in the order of
    [categories]. *)
Lemma row_at_viral_index (dfc : list Monthly.article) (i : nat) :
  row_at (Monthly.viral_index_df dfc) i
  = map (fun cat => (cat, cell_at (Monthly.viral_index_df dfc) i cat))
        (Monthly.categories dfc).
Proof.
  unfold row_at, cell_at. rewrite viral_index_df_columns, map_map.
  apply map_ext_in. intros cat Hcat. cbn [fst snd].
  now rewrite (lookup_map_key String.eqb String.eqb_eq
                 (fun cat => Monthly.viral_index
                    (of_counts (map (fun month => Monthly.cat_count dfc month cat)
                                    (Monthly.months dfc))))) by assumption.
Qed.

Lemma NoDup_row (dfc : list Monthly.article) (i : nat) :
  NoDup (row_at (Monthly.viral_index_df dfc) i).
Proof.
  rewrite row_at_viral_index.
  apply Finite.Injective_map_NoDup; [| apply NoDup_categories].
  intros c1 c2 [= ->]. reflexivity.
Qed.

(** The three best entries of the month at position [i]. *)
Lemma NoDup_top3 (kind : sort_kind) (dfc : list Monthly.article) (i : nat) :
  rearranges kind ->
  NoDup (head 3 (sort_values_desc kind (row_at (Monthly.viral_index_df dfc) i))).
Proof.
  intros Hk. unfold head. apply NoDup_firstn.
  eapply Permutation_NoDup;
    [apply Permutation_sym, sort_values_desc_perm, Hk | apply NoDup_row].
Qed.

Lemma month_results_length (kind : sort_kind) (dfc : list Monthly.article)
      (month : string) :
  (length (Monthly.month_results kind dfc month) <= 3)%nat.
Proof.
  unfold Monthly.month_results, enumerate1, head.
  rewrite length_map, length_combine, length_seq, length_firstn. lia.
Qed.

Lemma month_results_rank (kind : sort_kind) (dfc : list Monthly.article)
      (month : string) (r : Monthly.viral_result) :
  In r (Monthly.month_results kind dfc month) ->
  (1 <= Monthly.r_rank r <= 3)%nat /\ Monthly.r_ym r = month.
Proof.
  unfold Monthly.month_results, enumerate1, head. intros Hr.
  apply in_map_iff in Hr as ([k x] & <- & He). cbn.
  apply in_combine_l, in_seq in He. rewrite length_firstn in He.
  split; [lia | reflexivity].
Qed.

Lemma viral_results_month (kind : sort_kind) (dfc : list Monthly.article)
      (r : Monthly.viral_result) :
  In r (Monthly.viral_results kind dfc) ->
  In (Monthly.r_ym r) (Monthly.months dfc)
  /\ In r (Monthly.month_results kind dfc (Monthly.r_ym r)).
Proof.
  unfold Monthly.viral_results. intros Hr.
  apply in_flat_map in Hr as (month & Hmonth & Hr).
  destruct (month_results_rank kind dfc month r Hr) as [_ ->]. now split.
Qed.

(** Within one month and with an order-preserving sort, of two categories
    with the same score the one listed first in [categories] is ranked
    first, as soon as the other is ranked. *)
Lemma month_results_tie (kind : sort_kind) (dfc : list Monthly.article)
      (month c1 c2 : string) (r2 : Monthly.viral_result) :
  rearranges kind -> keeps_ties_in_place kind ->
  before c1 c2 (Monthly.categories dfc) ->
  cell_at (Monthly.viral_index_df dfc) (index_of month (Monthly.months dfc)) c1
  = cell_at (Monthly.viral_index_df dfc) (index_of month (Monthly.months dfc)) c2 ->
  In r2 (Monthly.month_results kind dfc month) ->
  Monthly.r_category r2 = c2 ->
  exists r1, In r1 (Monthly.month_results kind dfc month)
             /\ Monthly.r_category r1 = c1
             /\ (Monthly.r_rank r1 < Monthly.r_rank r2)%nat.
Proof.
  intros Hperm Hstable Hbef Htie Hr2 Hc2.
  unfold Monthly.month_results in *.
  set (i := index_of month (Monthly.months dfc)) in *.
  set (score := fun cat => cell_at (Monthly.viral_index_df dfc) i cat) in *.
  set (top := head 3 (sort_values_desc kind (row_at (Monthly.viral_index_df dfc) i))) in *.
  apply in_map_iff in Hr2 as ([k2 [c s]] & <- & He). cbn in Hc2. subst c.
  assert (Htop : In (c2, s) top) by (apply in_combine_r in He; exact He).
  assert (Hrow : In (c2, s) (row_at (Monthly.viral_index_df dfc) i)).
  { unfold top, head in Htop. apply In_firstn in Htop.
    now apply (Permutation_in _ (sort_values_desc_perm kind _ Hperm)). }
  rewrite row_at_viral_index in Hrow.
  apply in_map_iff in Hrow as (c & [= -> <-] & _).
  assert (Hord : before (c1, score c1) (c2, score c2) top).
  { unfold top, head. apply before_firstn.
    - eapply Permutation_NoDup;
        [apply Permutation_sym, sort_values_desc_perm, Hperm | apply NoDup_row].
    - apply sort_values_desc_stable; [exact Hstable | | exact Htie].
      rewrite row_at_viral_index.
      now apply (before_map (fun cat => (cat, score cat))).
    - exact Htop. }
  destruct (before_numbered 1 _ _ top k2 (NoDup_top3 kind dfc i Hperm) Hord He)
    as (k1 & Hk1 & Hlt).
  eexists. split; [apply in_map_iff; exists (k1, (c1, score c1)); split;
                   [reflexivity | exact Hk1] |].
  cbn. split; [reflexivity | exact Hlt].
Qed.

Lemma tie_ranking :
  map rank_view (Monthly.viral_results stable_kind tie_articles)
  = [("2025-01", 1%nat, "A"); ("2025-01", 2%nat, "B")]%string.
Proof.
  unfold Monthly.viral_results, Monthly.month_results. cbn.
  feval. reflexivity.
Qed.

Lemma In_numbered {A} (start : nat) (x : A) (l : list A) :
  In x l -> exists k, In (k, x) (combine (seq start (length l)) l).
Proof.
  revert start. induction l as [| y l IH]; intros start; cbn; [tauto |].
  intros [-> | Hin].
  - exists start. now left.
  - destruct (IH (S start) Hin) as (k & Hk). exists k. now right.
Qed.

(** With at most three categories every category is ranked in every
    month. *)
Lemma viral_results_complete (kind : sort_kind) (dfc : list Monthly.article)
      (month c : string) :
  rearranges kind ->
  (length (Monthly.categories dfc) <= 3)%nat ->
  In month (Monthly.months dfc) -> In c (Monthly.categories dfc) ->
  exists r, In r (Monthly.viral_results kind dfc)
            /\ Monthly.r_ym r = month
            /\ Monthly.r_category r = c
            /\ Monthly.r_count r = Monthly.cat_count dfc month c.
Proof.
  intros Hperm Hlen Hmonth Hc.
  set (i := index_of month (Monthly.months dfc)).
  set (row := row_at (Monthly.viral_index_df dfc) i).
  assert (Hrow : In (c, cell_at (Monthly.viral_index_df dfc) i c) row).
  { unfold row. rewrite row_at_viral_index.
    apply (in_map (fun cat => (cat, cell_at (Monthly.viral_index_df dfc) i cat))).
    exact Hc. }
  assert (Htop : In (c, cell_at (Monthly.viral_index_df dfc) i c)
                    (head 3 (sort_values_desc kind row))).
  { unfold head. rewrite firstn_all2.
    - now apply (Permutation_in _
                   (Permutation_sym (sort_values_desc_perm kind row Hperm))).
    - rewrite (Permutation_length (sort_values_desc_perm kind row Hperm)).
      unfold row. now rewrite row_at_viral_index, length_map. }
  destruct (In_numbered 1 _ _ Htop) as (k & Hk).
  eexists. split.
  - unfold Monthly.viral_results. apply in_flat_map. exists month.
    split; [exact Hmonth |]. unfold Monthly.month_results, enumerate1.
    apply in_map_iff. eexists. split; [reflexivity | exact Hk].
  - cbn. repeat split.
Qed.

(** ** C7: ties in the monthly ranking *)

(** C7, as amended.  The monthly ranking is computed from the count table,
    whose columns are the labels in sorted order: it is the same for every
    order of the rows of the sheet, hence for every first-seen order of the
    categories.  When two categories have the same composite score in a
    month and the sort keeps equal values in place, the one that comes
    first in the sorted label list is ranked better: whenever the later one
    has a row, the earlier one has a row of the same month with a smaller
    rank.  Each month keeps at most 3 rows, ranked 1 to 3. *)
Theorem C7_ranking_over_sorted_labels
        (kind : sort_kind) (dfc dfc' : list Monthly.article)
        (c1 c2 : string) (r2 : Monthly.viral_result) :
  rearranges kind ->
  Permutation dfc dfc' ->
  before c1 c2 (Monthly.categories dfc) ->
  cell_at (Monthly.viral_index_df dfc)
          (index_of (Monthly.r_ym r2) (Monthly.months dfc)) c1
  = cell_at (Monthly.viral_index_df dfc)
            (index_of (Monthly.r_ym r2) (Monthly.months dfc)) c2 ->
  In r2 (Monthly.viral_results kind dfc) ->
  Monthly.r_category r2 = c2 ->
  Monthly.viral_results kind dfc' = Monthly.viral_results kind dfc
  /\ (keeps_ties_in_place kind ->
      exists r1, In r1 (Monthly.viral_results kind dfc)
                 /\ Monthly.r_ym r1 = Monthly.r_ym r2
                 /\ Monthly.r_category r1 = c1
                 /\ (Monthly.r_rank r1 < Monthly.r_rank r2)%nat)
  /\ (1 <= Monthly.r_rank r2 <= 3)%nat
  /\ (length (Monthly.month_results kind dfc (Monthly.r_ym r2)) <= 3)%nat.
Proof.
  intros Hperm Hrows Hbef Htie Hr2 Hc2.
  destruct (viral_results_month kind dfc r2 Hr2) as [Hmonth Hin2].
  split; [now apply viral_results_perm |]. split; [| split].
  - intros Hstable.
    destruct (month_results_tie kind dfc (Monthly.r_ym r2) c1 c2 r2
                Hperm Hstable Hbef Htie Hin2 Hc2)
      as (r1 & Hin1 & Hc1 & Hlt).
    exists r1. repeat split; try assumption.
    + unfold Monthly.viral_results. apply in_flat_map.
      exists (Monthly.r_ym r2). now split.
    + now destruct (month_results_rank kind dfc _ r1 Hin1).
  - now destruct (month_results_rank kind dfc _ r2 Hin2).
  - apply month_results_length.
Qed.

Lemma C7_ranking_witness :
  Monthly.viral_results stable_kind (rev tie_articles)
  = Monthly.viral_results stable_kind tie_articles
  /\ exists r1 r2,
      In r1 (Monthly.viral_results stable_kind tie_articles)
      /\ In r2 (Monthly.viral_results stable_kind tie_articles)
      /\ Monthly.r_category r1 = "A"%string
      /\ Monthly.r_category r2 = "B"%string
      /\ (Monthly.r_rank r1 < Monthly.r_rank r2)%nat.
Proof.
  destruct (viral_results_complete stable_kind tie_articles "2025-01" "B")
    as (r2 & Hin2 & Hym & Hc2 & _).
  - exact stable_kind_rearranges.
  - cbn; lia.
  - cbn; tauto.
  - cbn; tauto.
  - destruct (C7_ranking_over_sorted_labels
                stable_kind tie_articles (rev tie_articles) "A" "B" r2)
      as (Hsame & Htie & _).
    + exact stable_kind_rearranges.
    + apply Permutation_rev.
    + apply before_here. cbn. tauto.
    + rewrite Hym. reflexivity.
    + exact Hin2.
    + exact Hc2.
    + split; [exact Hsame |].
      destruct (Htie stable_kind_keeps_ties) as (r1 & Hin1 & _ & Hc1 & Hlt).
      exists r1, r2. repeat split; assumption.
Defined.

(** C7, as stated, fails: the script ranks over the sorted label list, not
    over the first-seen enumeration.  Take a first article of category B
    and a second one of category A in the same month, and the same two
    articles in the other order: B is seen first in the one, A in the
    other, the two scores are equal, and the ranking is the same for both.
    So whatever sort runs, the category seen first is not ranked better in
    one of the two; with the order-preserving sort it is A that gets rank 1
    and B rank 2 in both. *)
Lemma C7_counterexample :
  unique (map Monthly.category tie_articles) = ["B"; "A"]%string
  /\ unique (map Monthly.category (rev tie_articles)) = ["A"; "B"]%string
  /\ cell_at (Monthly.viral_index_df tie_articles) 0 "B"
     = cell_at (Monthly.viral_index_df tie_articles) 0 "A"
  /\ (forall kind : sort_kind,
         rearranges kind ->
         ~ (ranked_better kind tie_articles "2025-01" "B" "A"
            /\ ranked_better kind (rev tie_articles) "2025-01" "A" "B"))
  /\ map rank_view (Monthly.viral_results stable_kind tie_articles)
     = [("2025-01", 1%nat, "A"); ("2025-01", 2%nat, "B")]%string.
Proof.
  split; [reflexivity |]. split; [reflexivity |]. split; [reflexivity |].
  split; [| exact tie_ranking].
  intros kind Hperm [Hfirst Hsecond].
  destruct (viral_results_complete kind tie_articles "2025-01" "A" Hperm)
    as (rA & HinA & HymA & HcA & _); [cbn; lia | cbn; tauto | cbn; tauto |].
  destruct (viral_results_complete kind tie_articles "2025-01" "B" Hperm)
    as (rB & HinB & HymB & HcB & _); [cbn; lia | cbn; tauto | cbn; tauto |].
  pose proof (Hfirst rB rA HinB HinA HymB HymA HcB HcA) as H1.
  unfold ranked_better in Hsecond.
  rewrite (viral_results_perm kind tie_articles (rev tie_articles)
             (Permutation_rev tie_articles)) in Hsecond.
  pose proof (Hsecond rA rB HinA HinB HymA HymB HcA HcB) as H2.
  lia.
Qed.

Lemma C10_change_text_witness :
  exists r, In r (Monthly.viral_results stable_kind late_start)
            /\ Monthly.r_ym r = "2025-02"%string
            /\ Monthly.r_category r = "A"%string
            /\ Monthly.r_count r = 2%Z
            /\ Monthly.r_mom_str r = "+0.0%"%string.
Proof.
  destruct (viral_results_complete stable_kind late_start "2025-02" "A")
    as (r & Hin & Hym & Hc & Hcount).
  - exact stable_kind_rearranges.
  - cbn; lia.
  - cbn; tauto.
  - cbn; tauto.
  - exists r. repeat split; try assumption.
    destruct (C10_change_text stable_kind late_start r Hin) as [_ H].
    rewrite Hym, Hc in H. destruct H as [_ H]; [cbn; lia |].
    apply H. reflexivity.
Defined.

(** ** C9: rows left out, loads given up *)

Lemma to_datetime_rejects (col : list Weekly.raw_date) :
  In (Weekly.DateText None) col -> Weekly.to_datetime col = None.
Proof.
  induction col as [| [[d |] |] col IH]; cbn; intros Hin.
  - tauto.
  - destruct Hin as [Hin | Hin]; [discriminate |]. now rewrite IH.
  - reflexivity.
  - destruct Hin as [Hin | Hin]; [discriminate |]. now rewrite IH.
Qed.

Lemma to_datetime_parses (rows : list Weekly.raw_news) :
  (forall r, In r rows -> Weekly.news_date r <> Weekly.DateText None) ->
  Weekly.to_datetime (map Weekly.news_date rows)
  = Some (map (fun r => Weekly.date (parsed_row r)) rows).
Proof.
  induction rows as [| r rows IH]; intros Hok; [reflexivity |].
  assert (Hr : Weekly.news_date r <> Weekly.DateText None)
    by (apply Hok; now left).
  assert (IH' := IH (fun r' Hr' => Hok r' (or_intror Hr'))).
  cbn [map]. unfold parsed_row at 1. cbn [Weekly.date].
  destruct (Weekly.news_date r) as [[d |] |]; [| congruence |];
    cbn [Weekly.to_datetime]; rewrite IH'; reflexivity.
Qed.

Lemma combine_parsed (rows : list Weekly.raw_news) :
  map (fun p => {| Weekly.date := fst p; Weekly.category := snd p |})
      (combine (map (fun r => Weekly.date (parsed_row r)) rows)
               (map Weekly.raw_category rows))
  = map parsed_row rows.
Proof.
  induction rows as [| r rows IH]; [reflexivity |].
  cbn [map combine fst snd]. now rewrite IH.
Qed.

Lemma fetch_parses (rows : list Weekly.raw_news) :
  rows <> [] ->
  (forall r, In r rows -> Weekly.news_date r <> Weekly.DateText None) ->
  Weekly.fetch_news_data_from_db rows = Some (map parsed_row rows).
Proof.
  intros Hne Hok. unfold Weekly.fetch_news_data_from_db.
  destruct rows as [| r0 rows0]; [congruence |].
  rewrite to_datetime_parses by assumption.
  now rewrite combine_parsed.
Qed.

Lemma keys_of_filter (df : list Weekly.news) :
  Weekly.keys_of (filter has_key df) = Weekly.keys_of df.
Proof.
  induction df as [| [[d |] [c |]] df IH]; [reflexivity | | | |];
    cbn; now rewrite ?IH.
Qed.

Lemma weekly_counts_filter (df : list Weekly.news) :
  Weekly.weekly_counts (filter has_key df) = Weekly.weekly_counts df.
Proof.
  unfold Weekly.weekly_counts, Weekly.unstack, Weekly.group_size,
    Weekly.weeks, Weekly.categories.
  now rewrite keys_of_filter.
Qed.

Lemma df_classified_idem (df : list Monthly.article) :
  Monthly.df_classified (Monthly.df_classified df) = Monthly.df_classified df.
Proof.
  unfold Monthly.df_classified. induction df as [| r df IH]; [reflexivity |].
  cbn. destruct (negb (Monthly.category r =? Monthly.unclassified)%string) eqn:E;
    cbn; [rewrite E; now f_equal | assumption].
Qed.

(** C9, as amended.  In the weekly script a database row whose date text
    does not parse makes the load give up, and [main] returns without an
    index; when every date text parses, the index is computed, and rows
    with a null date or a null category are left out of the aggregation
    (the result is that of the remaining rows).  In the monthly script the
    rows labelled as unclassified are left out in the same way.  The result
    of either script is the same whatever the number of rows left out: no
    count of them is returned. *)
Theorem C9_rows_left_out
        (all_data : list Weekly.raw_news) (df : list Weekly.news)
        (kind : sort_kind) (sheet : list Monthly.article) :
  ((exists r, In r all_data /\ Weekly.news_date r = Weekly.DateText None) ->
   Weekly.main all_data = None)
  /\ (all_data <> [] ->
      (forall r, In r all_data -> Weekly.news_date r <> Weekly.DateText None) ->
      Weekly.main all_data
      = Some (Weekly.calculate_weekly_viral_index
                (filter has_key (map parsed_row all_data))))
  /\ Weekly.calculate_weekly_viral_index df
     = Weekly.calculate_weekly_viral_index (filter has_key df)
  /\ Monthly.calculate_viral_index kind sheet
     = Monthly.calculate_viral_index kind (Monthly.df_classified sheet).
Proof.
  assert (Hfilter : forall d, Weekly.calculate_weekly_viral_index d
                              = Weekly.calculate_weekly_viral_index (filter has_key d)).
  { intros d. unfold Weekly.calculate_weekly_viral_index.
    now rewrite weekly_counts_filter. }
  split; [| split; [| split]].
  - intros (r & Hin & Hbad). unfold Weekly.main, Weekly.fetch_news_data_from_db.
    destruct all_data as [| r0 rows] eqn:E; [reflexivity |]. rewrite <- E in *.
    rewrite to_datetime_rejects; [reflexivity |].
    rewrite <- Hbad. now apply in_map.
  - intros Hne Hok. unfold Weekly.main.
    rewrite fetch_parses by assumption. f_equal. apply Hfilter.
  - apply Hfilter.
  - unfold Monthly.calculate_viral_index. now rewrite df_classified_idem.
Qed.

Lemma C9_rows_left_out_witness :
  Weekly.main [good_row; bad_row] = None
  /\ Weekly.main [good_row]
     = Some (Weekly.calculate_weekly_viral_index
               (filter has_key (map parsed_row [good_row]))).
Proof.
  split.
  - apply (C9_rows_left_out [good_row; bad_row] [] stable_kind []).
    exists bad_row. split; [cbn; tauto | reflexivity].
  - apply (C9_rows_left_out [good_row] [] stable_kind []); [discriminate |].
    intros r [<- | []]. discriminate.
Defined.

(** C9, as stated, fails on the weekly script: one row with a date text
    that does not parse, next to a good row, is not set aside; the whole
    load is given up and no index is computed, whereas the good row alone
    gives one. *)
Lemma C9_counterexample :
  Weekly.main [good_row; bad_row] = None
  /\ Weekly.main [good_row] <> None.
Proof. split; [reflexivity | discriminate]. Qed.
